(** * JedBonize frame composer: a shallow embedding of [src/App.tsx]

    The application keeps one optional photo ([profileImage]) with its
    placement (offset, scale, rotation) and the path of the decorative frame
    ([frameImage]).  Event handlers update that state; [handleDownload] maps
    the on-screen placement to drawing commands on a canvas that has the
    frame's natural resolution.

    JavaScript numbers are IEEE 754 binary64 values and are embedded as Rocq's
    primitive [float]; DOM attributes of WebIDL type [long] / [unsigned long]
    ([offsetWidth], [clientWidth], [HTMLImageElement.width]) are embedded as
    [Z] and converted when they enter an arithmetic expression. *)

From Stdlib Require Import ZArith List String Ascii Bool Lia DecimalString.
From Stdlib Require Import Floats.
From Stdlib Require Uint63.
Import ListNotations.

Set Warnings "-inexact-float".

(** ** The fragment of the JavaScript platform the handlers use *)

Module JS.

Local Open Scope float_scope.

Abbreviation number := float (only parsing).

(** An integer read from the DOM, seen as a number.  DOM integers have 32
    bits, and the conversion is exact for every integer below 2^53 in
    magnitude. *)
Definition of_long (z : Z) : number :=
  if (z <? 0)%Z then - of_uint63 (Uint63.of_Z (- z))
  else of_uint63 (Uint63.of_Z z).

Definition isNaN (v : number) : bool := negb (v =? v).

Definition is_pos_zero (v : number) : bool := is_zero v && negb (get_sign v).
Definition is_neg_zero (v : number) : bool := is_zero v && get_sign v.

(** [Math.min(...)]: start from +Infinity, return NaN at the first NaN,
    treat -0 as smaller than +0, keep the smaller value otherwise. *)
Fixpoint min_from (lowest : number) (args : list number) : number :=
  match args with
  | [] => lowest
  | v :: rest =>
      if isNaN v then nan
      else if is_neg_zero v && is_pos_zero lowest then min_from v rest
      else if v <? lowest then min_from v rest
      else min_from lowest rest
  end.

Definition Math_min (args : list number) : number := min_from infinity args.

(** [Math.max(...)]: the mirror image, starting from -Infinity. *)
Fixpoint max_from (highest : number) (args : list number) : number :=
  match args with
  | [] => highest
  | v :: rest =>
      if isNaN v then nan
      else if is_pos_zero v && is_neg_zero highest then max_from v rest
      else if highest <? v then max_from v rest
      else max_from highest rest
  end.

Definition Math_max (args : list number) : number := max_from neg_infinity args.

Definition Math_PI : number := 3.141592653589793.

(** [a || b] where [a] is an optional DOM integer ([el?.offsetWidth]):
    [undefined] and [0] are falsy. *)
Definition or_long (a : option Z) (b : Z) : Z :=
  match a with
  | Some v => if (v =? 0)%Z then b else v
  | None => b
  end.

(** [s.startsWith(p)] *)
Definition startsWith (s p : string) : bool := String.prefix p s.

(** The number nearest to an integer of any size (round to nearest even). *)
Definition of_integer (z : Z) : number :=
  SF2Prim (binary_normalize prec emax z 0 false).

Definition is_whitespace (c : ascii) : bool :=
  let n := N_of_ascii c in
  ((n =? 9) || (n =? 10) || (n =? 11) || (n =? 12) || (n =? 13) || (n =? 32))%N.

Fixpoint trim_start (s : string) : string :=
  match s with
  | String c rest => if is_whitespace c then trim_start rest else s
  | EmptyString => s
  end.

Definition digit_of (radix : Z) (c : ascii) : option Z :=
  let n := Z.of_N (N_of_ascii c) in
  let v := if ((48 <=? n) && (n <=? 57))%Z then Some (n - 48)%Z
           else if ((97 <=? n) && (n <=? 122))%Z then Some (n - 87)%Z
           else if ((65 <=? n) && (n <=? 90))%Z then Some (n - 55)%Z
           else None in
  match v with
  | Some d => if (d <? radix)%Z then Some d else None
  | None => None
  end.

(** The value of the longest prefix of digits; [None] when it is empty. *)
Fixpoint digits (radix : Z) (s : string) (acc : option Z) : option Z :=
  match s with
  | String c rest =>
      match digit_of radix c with
      | Some d =>
          digits radix rest
            (Some (radix * match acc with Some a => a | None => 0 end + d)%Z)
      | None => acc
      end
  | EmptyString => acc
  end.

(** [parseInt(s)] without a radix argument: leading white space, a sign, a
    [0x] prefix selecting radix 16, then digits; NaN when there is none. *)
Definition parseInt (s : string) : number :=
  let s1 := trim_start s in
  let '(negative, s2) :=
    match s1 with
    | String "-" rest => (true, rest)
    | String "+" rest => (false, rest)
    | _ => (false, s1)
    end in
  let '(radix, s3) :=
    match s2 with
    | String "0" (String "x" rest) => (16%Z, rest)
    | String "0" (String "X" rest) => (16%Z, rest)
    | _ => (10%Z, s2)
    end in
  match digits radix s3 None with
  | None => nan
  | Some z => if negative then - of_integer z else of_integer z
  end.

End JS.

(** ** The 2D canvas the export draws on

    Drawing commands are data; [run] interprets them on a pixel surface.  What
    the HTML standard leaves to the implementation (resampling under a
    transformation, blending of partially transparent pixels, the pixels a
    transformed [clearRect] touches) stays a parameter of the interpreter. *)

Module Canvas.

Import JS.
Local Open Scope float_scope.

Record Pixel := mkPixel { red : Z; green : Z; blue : Z; alpha : Z }.

Definition transparent_black : Pixel := mkPixel 0 0 0 0.

(** Pixel at column [i], row [j]. *)
Definition Bitmap := Z -> Z -> Pixel.

(** A decoded [Image]: natural size and pixels. *)
Record Image := mkImage { width : Z; height : Z; pixels : Bitmap }.

Inductive Command :=
| set_width (w : Z)
| set_height (h : Z)
| clearRect (x y w h : number)
| save
| restore
| translate (x y : number)
| rotate (angle : number)
| drawImage (img : Image) (dx dy dw dh : number).

Inductive Transform :=
| tr_translate (x y : number)
| tr_rotate (angle : number).

(** The current transformation is the list of transformations applied since
    the identity; [saved] is the stack of [save]. *)
Record State := mkState {
  cv_width : Z;
  cv_height : Z;
  surface : Bitmap;
  ctm : list Transform;
  saved : list (list Transform)
}.

Definition inside (w h i j : Z) : bool :=
  ((0 <=? i) && (i <? w) && (0 <=? j) && (j <? h))%Z.

Section Rasterizer.

Variable blend : Pixel -> Pixel -> Pixel.
Variable resample : list Transform -> Image -> number -> number -> number -> number -> Bitmap.
Variable erased : list Transform -> number -> number -> number -> number -> Z -> Z -> bool.

(** Source-over compositing of one pixel: an opaque source replaces the
    destination, a fully transparent one leaves it. *)
Definition over (s d : Pixel) : Pixel :=
  if (alpha s =? 255)%Z then s
  else if (alpha s =? 0)%Z then d
  else blend s d.

(** The pixels [drawImage] paints.  With the identity transformation and a
    destination rectangle that is the image's own rectangle at the origin
    the image is copied pixel for pixel. *)
Definition layer (t : list Transform) (img : Image) (dx dy dw dh : number) : Bitmap :=
  match t with
  | [] =>
      if (dx =? 0) && (dy =? 0) && (dw =? of_long (width img)) && (dh =? of_long (height img))
      then fun i j => if inside (width img) (height img) i j then pixels img i j
                      else transparent_black
      else resample t img dx dy dw dh
  | _ => resample t img dx dy dw dh
  end.

(** Assigning [canvas.width] or [canvas.height] clears the surface and
    resets the context to its default state. *)
Definition reset (w h : Z) : State :=
  {| cv_width := w; cv_height := h; surface := fun _ _ => transparent_black;
     ctm := []; saved := [] |}.

Definition exec (c : Command) (s : State) : State :=
  match c with
  | set_width w => reset w (cv_height s)
  | set_height h => reset (cv_width s) h
  | clearRect x y w h =>
      {| cv_width := cv_width s; cv_height := cv_height s;
         surface := fun i j => if erased (ctm s) x y w h i j then transparent_black
                               else surface s i j;
         ctm := ctm s; saved := saved s |}
  | save =>
      {| cv_width := cv_width s; cv_height := cv_height s; surface := surface s;
         ctm := ctm s; saved := ctm s :: saved s |}
  | restore =>
      match saved s with
      | [] => s
      | t :: rest =>
          {| cv_width := cv_width s; cv_height := cv_height s; surface := surface s;
             ctm := t; saved := rest |}
      end
  | translate x y =>
      if is_finite x && is_finite y
      then {| cv_width := cv_width s; cv_height := cv_height s; surface := surface s;
              ctm := ctm s ++ [tr_translate x y]; saved := saved s |}
      else s
  | rotate a =>
      if is_finite a
      then {| cv_width := cv_width s; cv_height := cv_height s; surface := surface s;
              ctm := ctm s ++ [tr_rotate a]; saved := saved s |}
      else s
  | drawImage img dx dy dw dh =>
      let l := layer (ctm s) img dx dy dw dh in
      {| cv_width := cv_width s; cv_height := cv_height s;
         surface := fun i j => if inside (cv_width s) (cv_height s) i j
                               then over (l i j) (surface s i j)
                               else surface s i j;
         ctm := ctm s; saved := saved s |}
  end.

Definition run (cs : list Command) (s : State) : State :=
  fold_left (fun st c => exec c st) cs s.

End Rasterizer.

End Canvas.

(** ** Application state *)

Module App.

Import JS.
Local Open Scope string_scope.
Local Open Scope float_scope.

Record ImageState := mkImageState {
  src : string;
  x : number;
  y : number;
  scale : number;
  rotation : number
}.

Record AppState := mkAppState {
  profileImage : option ImageState;
  frameImage : option string
}.

(** [useState] initial values. *)
Definition initialState : AppState :=
  {| profileImage := None; frameImage := Some "/frames/DP.png" |}.

Inductive Toast :=
| toast_error (msg : string)
| toast_success (msg : string).

(** A handler maps the state to the next state and the toasts it raised. *)
Definition Handler := AppState -> AppState * list Toast.

(** [setProfileImage(prev => prev ? f(prev) : null)] *)
Definition setProfileImage (f : ImageState -> ImageState) (st : AppState) : AppState :=
  {| profileImage := option_map f (profileImage st);
     frameImage := frameImage st |}.

Definition with_rotation (r : number) (p : ImageState) : ImageState :=
  {| src := src p; x := x p; y := y p; scale := scale p; rotation := r |}.

Definition with_scale (s : number) (p : ImageState) : ImageState :=
  {| src := src p; x := x p; y := y p; scale := s; rotation := rotation p |}.

Definition handleRotate : Handler := fun st =>
  match profileImage st with
  | None => (st, [])
  | Some _ =>
      (setProfileImage (fun prev => with_rotation (rotation prev + 90) prev) st,
       [toast_success "Image rotated!"])
  end.

Definition handlePreciseRotate (rot : number) : Handler := fun st =>
  match profileImage st with
  | None => (st, [])
  | Some _ => (setProfileImage (with_rotation rot) st, [])
  end.

(** The rotation slider, [<input type="range" min="0" max="360">]: its value
    is the decimal text of a whole number between [min] and [max]. *)
Definition slider_min : Z := 0.
Definition slider_max : Z := 360.

Definition slider_value (position : Z) : string :=
  NilZero.string_of_int (Z.to_int position).

(** [onChange={(e) => handlePreciseRotate(parseInt(e.target.value))}] *)
Definition slider_onChange (value : string) : Handler :=
  handlePreciseRotate (parseInt value).

Inductive Direction := zoom_in | zoom_out.

Definition zoomFactor (d : Direction) : number :=
  match d with zoom_in => 1.1 | zoom_out => 0.9 end.

Definition zoomScale (d : Direction) (s : number) : number :=
  Math_max [0.1; Math_min [3; s * zoomFactor d]].

Definition handleZoom (d : Direction) : Handler := fun st =>
  match profileImage st with
  | None => (st, [])
  | Some _ =>
      (setProfileImage (fun prev => with_scale (zoomScale d (scale prev)) prev) st,
       [toast_success
          ("Image " ++ match d with zoom_in => "zoomed in" | zoom_out => "zoomed out" end ++ "!")])
  end.

Definition clearAll : Handler := fun st =>
  ({| profileImage := None; frameImage := Some "/frames/sample-frame.svg" |},
   [toast_success "All images cleared!"]).

(** *** Dragging the photo *)

Record DragState := mkDragState {
  isDragging : bool;
  startX : number;
  startY : number;
  startImageX : number;
  startImageY : number
}.

Definition initialDragState : DragState :=
  {| isDragging := false; startX := 0; startY := 0; startImageX := 0; startImageY := 0 |}.

(** [getBoundingClientRect()] of the canvas container. *)
Record DOMRect := mkDOMRect {
  rect_left : number;
  rect_top : number;
  rect_width : number;
  rect_height : number
}.

(** The pointer position relative to the centre of the container; (0, 0)
    when the container is not mounted. *)
Definition getCanvasPosition (container : option DOMRect) (clientX clientY : number)
  : number * number :=
  match container with
  | None => (0, 0)
  | Some rect =>
      (clientX - rect_left rect - rect_width rect / 2,
       clientY - rect_top rect - rect_height rect / 2)
  end.

(** [handleMouseDown] and [handleTouchStart] (with the first touch point). *)
Definition handleMouseDown (container : option DOMRect) (clientX clientY : number)
    (st : AppState) (drag : DragState) : DragState :=
  match profileImage st with
  | None => drag
  | Some p =>
      let pos := getCanvasPosition container clientX clientY in
      {| isDragging := true; startX := fst pos; startY := snd pos;
         startImageX := x p; startImageY := y p |}
  end.

(** [handleMouseMove] and [handleTouchMove]. *)
Definition handleMouseMove (container : option DOMRect) (clientX clientY : number)
    (drag : DragState) : Handler := fun st =>
  match isDragging drag, profileImage st with
  | true, Some _ =>
      let pos := getCanvasPosition container clientX clientY in
      let deltaX := fst pos - startX drag in
      let deltaY := snd pos - startY drag in
      (setProfileImage
         (fun prev => {| src := src prev;
                         x := startImageX drag + deltaX;
                         y := startImageY drag + deltaY;
                         scale := scale prev; rotation := rotation prev |}) st,
       [])
  | _, _ => (st, [])
  end.

(** [handleMouseUp], [handleTouchEnd] and the global release listeners. *)
Definition handleMouseUp (drag : DragState) : DragState :=
  {| isDragging := false; startX := startX drag; startY := startY drag;
     startImageX := startImageX drag; startImageY := startImageY drag |}.

(** *** Upload *)

(** A [File] of the file input: its declared content type and the data URL
    that [FileReader.readAsDataURL] will produce for it. *)
Record File := mkFile {
  file_type : string;
  file_dataURL : string
}.

Inductive UploadKind := profile | frame.

(** [handleImageUpload] either returns at once or starts a [FileReader];
    [Some file] in the third component is the read it started. *)
Definition handleImageUpload (files : list File) (kind : UploadKind)
  : AppState -> AppState * list Toast * option File := fun st =>
  match files with
  | [] => (st, [], None)
  | file :: _ =>
      if negb (startsWith (file_type file) "image/")
      then (st, [toast_error "Please select a valid image file"], None)
      else (st, [], Some file)
  end.

(** [reader.onload]: the completion callback of the read. *)
Definition reader_onload (file : File) (kind : UploadKind) : Handler := fun st =>
  match kind with
  | profile =>
      ({| profileImage :=
            Some {| src := file_dataURL file; x := 0; y := 0; scale := 1; rotation := 0 |};
          frameImage := frameImage st |},
       [toast_success "Profile image uploaded successfully!"])
  | frame => (st, [])
  end.

(** *** Export *)

(** What the handler can see of the page: which refs are attached and the
    layout sizes of the elements behind them. *)
Record Dom := mkDom {
  canvasRef : bool;
  context2d : bool;
  canvasContainerRef : option (Z * Z);
  frameImgElementRef : option (Z * Z);
  profileImgElementRef : option (Z * Z)
}.

(** What the [onload] closures capture when the button is clicked. *)
Record ExportJob := mkExportJob {
  job_profile : ImageState;
  job_frame : string;
  displayedFrameWidth : Z;
  displayedFrameHeight : Z
}.

Inductive DownloadStart :=
| download_rejected (t : Toast)
| download_no_context
| download_loading (job : ExportJob).

Definition nonempty (s : string) : bool :=
  match s with EmptyString => false | _ => true end.

(** [handleDownload] up to [profileImg.src = profileImage.src]. *)
Definition handleDownload (dom : Dom) (st : AppState) : DownloadStart :=
  match canvasRef dom, profileImage st, frameImage st, canvasContainerRef dom with
  | true, Some p, Some f, Some (clientWidth, clientHeight) =>
      if negb (nonempty f)
      then download_rejected (toast_error "Please upload both profile image and frame first!")
      else if negb (context2d dom) then download_no_context
      else download_loading
             {| job_profile := p;
                job_frame := f;
                displayedFrameWidth :=
                  or_long (option_map fst (frameImgElementRef dom)) clientWidth;
                displayedFrameHeight :=
                  or_long (option_map snd (frameImgElementRef dom)) clientHeight |}
  | _, _, _, _ =>
      download_rejected (toast_error "Please upload both profile image and frame first!")
  end.

(** [profileImg.onload]: it installs [frameImg.onload] and starts loading the
    frame from this source. *)
Definition profileImg_onload (job : ExportJob) : string := job_frame job.

Section Mapping.

Variable job : ExportJob.
Variable dom : Dom.
Variables profileImg frameImg : Canvas.Image.

Definition scaleX : number :=
  of_long (Canvas.width frameImg) / of_long (displayedFrameWidth job).
Definition scaleY : number :=
  of_long (Canvas.height frameImg) / of_long (displayedFrameHeight job).

Definition actualX : number :=
  (of_long (displayedFrameWidth job) / 2 + x (job_profile job)) * scaleX.
Definition actualY : number :=
  (of_long (displayedFrameHeight job) / 2 + y (job_profile job)) * scaleY.

Definition baseDisplayedProfileWidth : Z :=
  or_long (option_map fst (profileImgElementRef dom)) (Canvas.width profileImg).
Definition baseDisplayedProfileHeight : Z :=
  or_long (option_map snd (profileImgElementRef dom)) (Canvas.height profileImg).

Definition destWidth : number :=
  of_long baseDisplayedProfileWidth * scale (job_profile job) * Math_min [scaleX; scaleY].
Definition destHeight : number :=
  of_long baseDisplayedProfileHeight * scale (job_profile job) * Math_min [scaleX; scaleY].

(** The drawing of [frameImg.onload], in program order. *)
Definition drawing : list Canvas.Command :=
  [ Canvas.set_width (Canvas.width frameImg);
    Canvas.set_height (Canvas.height frameImg);
    Canvas.clearRect 0 0 (of_long (Canvas.width frameImg)) (of_long (Canvas.height frameImg));
    Canvas.save;
    Canvas.translate actualX actualY;
    Canvas.rotate (rotation (job_profile job) * Math_PI / 180);
    Canvas.drawImage profileImg (- destWidth / 2) (- destHeight / 2) destWidth destHeight;
    Canvas.restore;
    Canvas.drawImage frameImg 0 0
      (of_long (Canvas.width frameImg)) (of_long (Canvas.height frameImg)) ].

End Mapping.

(** The outcome of [frameImg.onload]: the drawing, then the download link that
    is clicked ([canvas.toDataURL('image/png', 1.0)]) and the toast. *)
Record Export := mkExport {
  export_drawing : list Canvas.Command;
  link_download : string;
  link_type : string;
  link_quality : number;
  export_toast : Toast
}.

Definition frameImg_onload (job : ExportJob) (dom : Dom)
    (profileImg frameImg : Canvas.Image) : Export :=
  {| export_drawing := drawing job dom profileImg frameImg;
     link_download := "twibbon-image.png";
     link_type := "image/png";
     link_quality := 1.0;
     export_toast := toast_success "Image downloaded successfully!" |}.

(** One export request as a machine driven by the decode-completion events
    of the two [Image] objects the handler creates. *)
Inductive ExportPhase :=
| idle
| awaiting_profile (job : ExportJob)
| awaiting_frame (job : ExportJob) (profileImg : Canvas.Image)
| exported (e : Export).

Inductive LoadEvent :=
| profile_loaded (img : Canvas.Image)
| frame_loaded (dom : Dom) (img : Canvas.Image).

Definition export_request (dom : Dom) (st : AppState) : ExportPhase * list Toast :=
  match handleDownload dom st with
  | download_rejected t => (idle, [t])
  | download_no_context => (idle, [])
  | download_loading job => (awaiting_profile job, [])
  end.

Definition export_step (ph : ExportPhase) (ev : LoadEvent) : ExportPhase * list Toast :=
  match ph, ev with
  | awaiting_profile job, profile_loaded img => (awaiting_frame job img, [])
  | awaiting_frame job profileImg, frame_loaded dom frameImg =>
      let e := frameImg_onload job dom profileImg frameImg in
      (exported e, [export_toast e])
  | _, _ => (ph, [])
  end.

(** *** The operations the page offers

    Export is left out: it reads the state and does not change it. *)

Inductive Action :=
| act_upload (files : list File)
| act_read_done (file : File)
| act_pointer_down (container : option DOMRect) (clientX clientY : number)
| act_pointer_move (container : option DOMRect) (clientX clientY : number)
| act_pointer_up
| act_rotate
| act_slider (position : Z)
| act_zoom (d : Direction)
| act_clear.

Definition perform (a : Action) (s : AppState * DragState) : AppState * DragState :=
  let '(st, drag) := s in
  match a with
  | act_upload files => (fst (fst (handleImageUpload files profile st)), drag)
  | act_read_done file => (fst (reader_onload file profile st), drag)
  | act_pointer_down c cx cy => (st, handleMouseDown c cx cy st drag)
  | act_pointer_move c cx cy => (fst (handleMouseMove c cx cy drag st), drag)
  | act_pointer_up => (st, handleMouseUp drag)
  | act_rotate => (fst (handleRotate st), drag)
  | act_slider k => (fst (slider_onChange (slider_value k) st), drag)
  | act_zoom d => (fst (handleZoom d st), drag)
  | act_clear => (fst (clearAll st), drag)
  end.

Definition is_clear (a : Action) : bool :=
  match a with act_clear => true | _ => false end.

(** *** Notions the properties below are stated with *)

(** The state after a sequence of handler runs. *)
Definition after (hs : list Handler) (st : AppState) : AppState :=
  fold_left (fun s h => fst (h s)) hs st.

Definition scale_in_bounds (s : number) : bool := (0.1 <=? s) && (s <=? 3).

(** The frame source an export started in this state would load. *)
Definition frame_used (dom : Dom) (st : AppState) : option string :=
  match handleDownload dom st with
  | download_loading job => Some (profileImg_onload job)
  | _ => None
  end.

(** A running export that has not produced its image yet. *)
Definition pending (ph : ExportPhase) : bool :=
  match ph with
  | awaiting_profile _ | awaiting_frame _ _ => true
  | _ => false
  end.

(** The whole export: the request, then the load events in order. *)
Definition export_run (dom : Dom) (st : AppState) (evs : list LoadEvent)
  : ExportPhase * list Toast :=
  fold_left (fun acc ev => let '(ph, ts) := export_step (fst acc) ev in (ph, (snd acc ++ ts)%list))
            evs (export_request dom st).

(** The arguments of the [translate] commands of an export: where the
    photo's centre is put on the output canvas. *)
Definition anchors (e : Export) : list (number * number) :=
  flat_map (fun c => match c with Canvas.translate ax ay => [(ax, ay)] | _ => [] end)
           (export_drawing e).

(** [n] multiplications by [k] without clamping. *)
Fixpoint unclamped (k : number) (n : nat) (s : number) : number :=
  match n with O => s | S m => unclamped k m (s * k) end.

(** [k] clicks on the rotate button from rotation 0 give the number [90 * k],
    for every [k] up to [n]. *)
Definition quarter_turns_agree (n : nat) : bool :=
  forallb
    (fun k => match profileImage
                      (after (repeat handleRotate k)
                             {| profileImage := Some (mkImageState EmptyString 0 0 1 0);
                                frameImage := None |}) with
              | Some p => Leibniz.eqb (rotation p) (of_long (90 * Z.of_nat k))
              | None => false
              end)
    (seq 0 (S n)).

(** The slider positions, checked one by one: the handler stores the number
    the position denotes, which is at least 0 and at most 360. *)
Definition slider_positions_ok : bool :=
  forallb
    (fun k => let r := parseInt (slider_value k) in
              Leibniz.eqb r (of_long k) && (0 <=? r) && (r <=? 360)
              && Bool.eqb (r <? 360) (k <? 360)%Z)
    (map Z.of_nat (seq 0 361)).

(** *** The scenarios of the specification *)

(** A decoded image of the given natural size (its pixels do not matter for
    the mapping). *)
Definition blank (w h : Z) : Canvas.Image :=
  {| Canvas.width := w; Canvas.height := h;
     Canvas.pixels := fun _ _ => Canvas.transparent_black |}.

(** A mounted page whose frame element and container are [fw] by [fh] and
    whose photo element is 150 by 150 before its CSS transform. *)
Definition scenario_dom (fw fh : Z) : Dom :=
  {| canvasRef := true; context2d := true;
     canvasContainerRef := Some (fw, fh);
     frameImgElementRef := Some (fw, fh);
     profileImgElementRef := Some (150, 150)%Z |}.

(** A freshly uploaded photo dragged to the offset [(ox, oy)]. *)
Definition scenario_state (ox oy : number) : AppState :=
  {| profileImage := Some (mkImageState "data:image/png;base64,AA" ox oy 1 0);
     frameImage := Some "/frames/DP.png" |}.

(** An export in that page, with a frame of natural size [nw] by [nh]. *)
Definition scenario_export (fw fh nw nh : Z) (ox oy : number) : ExportPhase * list Toast :=
  export_run (scenario_dom fw fh) (scenario_state ox oy)
    [profile_loaded (blank 640 480); frame_loaded (scenario_dom fw fh) (blank nw nh)].

Definition scenario_anchors (fw fh nw nh : Z) (ox oy : number) : list (number * number) :=
  match fst (scenario_export fw fh nw nh ox oy) with
  | exported e => anchors e
  | _ => []
  end.

(** A 2 by 2 frame that is opaque except for its lower right pixel, a photo
    of one colour, and the simplest rasterizer: it blends by taking the
    source, resamples by copying and erases everything. *)
Definition opaque_red : Canvas.Pixel := Canvas.mkPixel 255 0 0 255.
Definition opaque_blue : Canvas.Pixel := Canvas.mkPixel 0 0 255 255.

Definition tiny_frame : Canvas.Image :=
  {| Canvas.width := 2; Canvas.height := 2;
     Canvas.pixels := fun i j => if ((i =? 1) && (j =? 1))%Z then Canvas.transparent_black
                                 else opaque_red |}.

Definition tiny_photo : Canvas.Image :=
  {| Canvas.width := 4; Canvas.height := 4; Canvas.pixels := fun _ _ => opaque_blue |}.

Definition copy_resample (t : list Canvas.Transform) (img : Canvas.Image)
    (dx dy dw dh : number) : Canvas.Bitmap := Canvas.pixels img.

Definition erase_all (t : list Canvas.Transform) (rx ry rw rh : number) (i j : Z) : bool := true.

Definition take_source (s d : Canvas.Pixel) : Canvas.Pixel := s.

Definition empty_canvas : Canvas.State := Canvas.reset 300 150.

Definition tiny_job : ExportJob :=
  {| job_profile := mkImageState "data:image/png;base64,AA" 3 (-2) 1.5 45;
     job_frame := "/frames/DP.png";
     displayedFrameWidth := 2; displayedFrameHeight := 2 |}.

End App.

(** ** The floating controls rail

    [updateControlsPosition] places the rail beside the frame, or where the
    user dropped it; [beginControlsDrag], [onControlsDragMove] and
    [endControlsDrag] move it with the pointer. *)

Module Controls.

Import JS.
Local Open Scope float_scope.

(** [const clamp = (value, min, max) => Math.max(min, Math.min(max, value))] *)
Definition clamp (value min max : number) : number :=
  Math_max [min; Math_min [max; value]].

(** [a >= b] *)
Definition ge (a b : number) : bool := b <=? a.

(** The result of [getBoundingClientRect()]. *)
Record ClientRect := mkClientRect {
  left : number;
  top : number;
  right : number;
  bottom : number;
  width : number;
  height : number
}.

(** The rail element: its rectangle and its layout size. *)
Record Rail := mkRail {
  rail_rect : ClientRect;
  rail_offsetWidth : Z;
  rail_offsetHeight : Z
}.

(** The elements behind the three refs, when they are attached. *)
Record Page := mkPage {
  canvasContainerRef : option ClientRect;
  frameImgElementRef : option ClientRect;
  controlsRailRef : option Rail
}.

(** The style [{ position: 'absolute', top, left }]. *)
Record Position := mkPosition {
  pos_top : number;
  pos_left : number
}.

(** [updateControlsPosition]: the style it sets, or [None] when it returns
    without setting one. *)
Definition updateControlsPosition (pg : Page) (controlsUserPos : option Position)
  : option Position :=
  match canvasContainerRef pg, frameImgElementRef pg with
  | Some containerRect, Some frameRect =>
      let desiredWidth := or_long (option_map rail_offsetWidth (controlsRailRef pg)) 220 in
      let desiredHeight := or_long (option_map rail_offsetHeight (controlsRailRef pg)) 140 in
      let margin := 12 in
      let spaceLeft := left frameRect - left containerRect - margin in
      let spaceRight := right containerRect - right frameRect - margin in
      let spaceTop := top frameRect - top containerRect - margin in
      match controlsUserPos with
      | Some userPos =>
          let railWidth :=
            or_long (option_map rail_offsetWidth (controlsRailRef pg)) desiredWidth in
          let railHeight :=
            or_long (option_map rail_offsetHeight (controlsRailRef pg)) desiredHeight in
          let clampedLeft :=
            clamp (pos_left userPos) margin
                  (width containerRect - of_long railWidth - margin) in
          let clampedTop :=
            clamp (pos_top userPos) margin
                  (height containerRect - of_long railHeight - margin) in
          Some {| pos_top := clampedTop; pos_left := clampedLeft |}
      | None =>
          if ge spaceLeft (of_long desiredWidth) then
            let top' :=
              clamp (top frameRect - top containerRect + height frameRect / 2
                     - of_long desiredHeight / 2)
                    margin (height containerRect - of_long desiredHeight - margin) in
            Some {| pos_top := top'; pos_left := margin |}
          else if ge spaceRight (of_long desiredWidth) then
            let top' :=
              clamp (top frameRect - top containerRect + height frameRect / 2
                     - of_long desiredHeight / 2)
                    margin (height containerRect - of_long desiredHeight - margin) in
            let left' := right frameRect - left containerRect + margin in
            Some {| pos_top := top'; pos_left := left' |}
          else if ge spaceTop (of_long desiredHeight) then
            let left' :=
              clamp (left frameRect - left containerRect + width frameRect / 2
                     - of_long desiredWidth / 2)
                    margin (width containerRect - of_long desiredWidth - margin) in
            Some {| pos_top := margin; pos_left := left' |}
          else
            let left' :=
              clamp (left frameRect - left containerRect + width frameRect / 2
                     - of_long desiredWidth / 2)
                    margin (width containerRect - of_long desiredWidth - margin) in
            let top' := bottom frameRect - top containerRect + margin in
            Some {| pos_top := top'; pos_left := left' |}
      end
  | _, _ => None
  end.

(** [controlsDragStartRef.current] *)
Record DragStart := mkDragStart {
  startX : number;
  startY : number;
  startTop : number;
  startLeft : number
}.

(** The state behind [controlsStyle] (the empty object is [None]),
    [controlsUserPos], [isDraggingControls] and [controlsDragStartRef]. *)
Record State := mkState {
  controlsStyle : option Position;
  controlsUserPos : option Position;
  isDraggingControls : bool;
  controlsDragStartRef : DragStart
}.

Definition initialState : State :=
  {| controlsStyle := None; controlsUserPos := None; isDraggingControls := false;
     controlsDragStartRef := {| startX := 0; startY := 0; startTop := 0; startLeft := 0 |} |}.


Definition beginControlsDrag (pg : Page) (clientX clientY : number) (st : State) : State :=
  match controlsRailRef pg, canvasContainerRef pg with
  | Some rail, Some containerRect =>
      {| controlsStyle := controlsStyle st; controlsUserPos := controlsUserPos st;
         isDraggingControls := true;
         controlsDragStartRef :=
           {| startX := clientX; startY := clientY;
              startTop := top (rail_rect rail) - top containerRect;
              startLeft := left (rail_rect rail) - left containerRect |} |}
  | _, _ => st
  end.

Definition onControlsDragMove (pg : Page) (clientX clientY : number) (st : State) : State :=
  match isDraggingControls st, canvasContainerRef pg, controlsRailRef pg with
  | true, Some containerRect, Some rail =>
      let railWidth := rail_offsetWidth rail in
      let railHeight := rail_offsetHeight rail in
      let margin := 8 in
      let deltaX := clientX - startX (controlsDragStartRef st) in
      let deltaY := clientY - startY (controlsDragStartRef st) in
      let nextLeft :=
        clamp (startLeft (controlsDragStartRef st) + deltaX) margin
              (width containerRect - of_long railWidth - margin) in
      let nextTop :=
        clamp (startTop (controlsDragStartRef st) + deltaY) margin
              (height containerRect - of_long railHeight - margin) in
      {| controlsStyle := Some {| pos_top := nextTop; pos_left := nextLeft |};
         controlsUserPos := controlsUserPos st;
         isDraggingControls := isDraggingControls st;
         controlsDragStartRef := controlsDragStartRef st |}
  | _, _, _ => st
  end.


(** A container of the given size at the origin of the viewport. *)
Definition container_of (w h : number) : ClientRect :=
  {| left := 0; top := 0; right := w; bottom := h; width := w; height := h |}.

(** A page 800 by 600 with a frame 400 by 400 in its centre and a rail 220 by
    140 at (12, 230). *)
Definition sample_page : Page :=
  {| canvasContainerRef := Some (container_of 800 600);
     frameImgElementRef :=
       Some {| left := 200; top := 100; right := 600; bottom := 500;
               width := 400; height := 400 |};
     controlsRailRef :=
       Some {| rail_rect := {| left := 12; top := 230; right := 232; bottom := 370;
                               width := 220; height := 140 |};
               rail_offsetWidth := 220; rail_offsetHeight := 140 |} |}.

End Controls.

(** ** The labels of the scale and of the rotation *)

Module Display.

Import JS.
Local Open Scope string_scope.
Local Open Scope float_scope.

(** The integer nearest to [m * 2^e], the larger one of two that are equally
    near. *)
Definition nearest_integer (m : positive) (e : Z) : Z :=
  match e with
  | Z.neg d => (2 * Z.pos m + 2 ^ Z.pos d) / 2 ^ (Z.pos d + 1)
  | _ => Z.pos m * 2 ^ e
  end.

(** [x.toFixed(0)] for a number below 10^21 in magnitude; [None] for the
    larger finite numbers, which are printed in exponent form. *)
Definition toFixed0 (x : number) : option string :=
  match Prim2SF x with
  | S754_nan => Some "NaN"
  | S754_infinity false => Some "Infinity"
  | S754_infinity true => Some "-Infinity"
  | S754_zero _ => Some "0"
  | S754_finite s m e =>
      if 1e21 <=? abs x then None
      else
        let digits := NilZero.string_of_uint (N.to_uint (Z.to_N (nearest_integer m e))) in
        Some (if s then "-" ++ digits else digits)
  end.

(** [{(profileImage.scale * 100).toFixed(0)}%] *)
Definition scale_display (p : App.ImageState) : option string :=
  option_map (fun digits => digits ++ "%") (toFixed0 (App.scale p * 100)).

(** The number in the label [Rotation: {profileImage.rotation.toFixed(0)}°]. *)
Definition rotation_label (p : App.ImageState) : option string :=
  toFixed0 (App.rotation p).

(** The slider shows the rotation it stored: for every position, the label
    after the input is the text of the position. *)
Definition slider_labels_agree : bool :=
  forallb
    (fun k =>
       match App.profileImage
               (fst (App.slider_onChange (App.slider_value k) (App.scenario_state 0 0))) with
       | Some p =>
           match rotation_label p with
           | Some label => String.eqb label (App.slider_value k)
           | None => false
           end
       | None => false
       end)
    (map Z.of_nat (seq 0 361)).

End Display.

(** * Properties *)

Import JS App.
Local Open Scope string_scope.
Local Open Scope float_scope.

(** ** Facts about binary64 arithmetic *)

Section FloatFacts.

Lemma ltb_leb (a b : float) : (a <? b) = true -> (a <=? b) = true.
Proof.
  rewrite ltb_spec, leb_spec. unfold SFltb, SFleb.
  destruct (SFcompare (Prim2SF a) (Prim2SF b)) as [[ | | ]|]; congruence.
Qed.

Lemma SFcompare_refl (s : spec_float) : s <> S754_nan -> SFcompare s s = Some Eq.
Proof.
  destruct s as [b|b| |b m e]; simpl; intros H; try congruence.
  - now destruct b.
  - rewrite Z.compare_refl.
    assert (Hm : PosDef.Pos.compare_cont Eq m m = Eq) by apply Pos.compare_cont_refl.
    rewrite Hm. now destruct b.
Qed.

Lemma eqb_refl_not_nan (a : float) : Prim2SF a <> S754_nan -> (a =? a) = true.
Proof.
  intros H. rewrite eqb_spec. unfold SFeqb. now rewrite SFcompare_refl.
Qed.

Lemma isNaN_false (a : float) : Prim2SF a <> S754_nan -> isNaN a = false.
Proof. intros H. unfold isNaN. now rewrite eqb_refl_not_nan. Qed.

Lemma iter_pos_invariant {A} (P : A -> Prop) (f : A -> A) :
  (forall a, P a -> P (f a)) -> forall p a, P a -> P (SpecFloat.iter_pos f p a).
Proof.
  intros Hf. induction p as [p IH|p IH| ]; intros a Ha; simpl; auto.
Qed.

Lemma shr_1_nonneg mrs : (0 <= shr_m mrs)%Z -> (0 <= shr_m (shr_1 mrs))%Z.
Proof.
  destruct mrs as [m r s]. simpl.
  destruct m as [|[p|p|]|[p|p|]]; simpl; lia.
Qed.

Lemma shr_nonneg mrs e n : (0 <= shr_m mrs)%Z -> (0 <= shr_m (fst (shr mrs e n)))%Z.
Proof.
  intros H. unfold shr. destruct n; simpl; auto.
  apply (iter_pos_invariant (fun r => (0 <= shr_m r)%Z)); auto using shr_1_nonneg.
Qed.

Lemma shr_fexp_nonneg m e l :
  (0 <= m)%Z -> (0 <= shr_m (fst (shr_fexp prec emax m e l)))%Z.
Proof.
  intros H. unfold shr_fexp. apply shr_nonneg.
  destruct l as [|[ | | ]]; simpl; exact H.
Qed.

Lemma round_nearest_even_nonneg m l : (0 <= m)%Z -> (0 <= round_nearest_even m l)%Z.
Proof.
  intros H. unfold round_nearest_even.
  destruct l as [|[ | | ]]; try lia. destruct (IntDef.Z.even m); lia.
Qed.

(** Rounding a non-negative significand never produces NaN. *)
Lemma binary_round_aux_not_nan sx mx ex lx :
  (0 <= mx)%Z -> binary_round_aux prec emax sx mx ex lx <> S754_nan.
Proof.
  intros H. unfold binary_round_aux.
  pose proof (shr_fexp_nonneg mx ex lx H) as H1.
  destruct (shr_fexp prec emax mx ex lx) as [mrs' e']. simpl in H1.
  pose proof (shr_fexp_nonneg _ e' loc_Exact
                (round_nearest_even_nonneg _ (loc_of_shr_record mrs') H1)) as H2.
  destruct (shr_fexp prec emax _ e' loc_Exact) as [mrs'' e'']. simpl in H2.
  destruct (shr_m mrs'') as [|m|m]; try discriminate.
  - destruct (e'' <=? emax - prec)%Z; discriminate.
  - lia.
Qed.

Lemma binary_normalize_not_nan m e sz : binary_normalize prec emax m e sz <> S754_nan.
Proof.
  unfold binary_normalize, binary_round. destruct m as [|p|p]; try discriminate.
  - destruct (shl_align p e _) as [mz ez]. apply binary_round_aux_not_nan. lia.
  - destruct (shl_align p e _) as [mz ez]. apply binary_round_aux_not_nan. lia.
Qed.

(** The product of two finite numbers is a number. *)
Lemma mul_finite_not_nan a b sa ma ea sb mb eb :
  Prim2SF a = S754_finite sa ma ea -> Prim2SF b = S754_finite sb mb eb ->
  Prim2SF (a * b) <> S754_nan.
Proof.
  intros Ha Hb. rewrite mul_spec, Ha, Hb. unfold SF64mul, SFmul.
  apply binary_round_aux_not_nan. lia.
Qed.

(** A value between two finite bounds, the lower one positive, is finite. *)
Lemma between_finite (lo hi a : float) mlo elo shi mhi ehi :
  Prim2SF lo = S754_finite false mlo elo -> Prim2SF hi = S754_finite shi mhi ehi ->
  (lo <=? a) = true -> (a <=? hi) = true ->
  exists m e, Prim2SF a = S754_finite false m e.
Proof.
  intros Hlo Hhi. rewrite !leb_spec, Hlo, Hhi. unfold SFleb.
  destruct (Prim2SF a) as [s|s| |s m e]; simpl.
  - discriminate.
  - destruct s; discriminate.
  - discriminate.
  - destruct s; [discriminate|]. eauto.
Qed.

Lemma of_long_not_nan (z : Z) : Prim2SF (of_long z) <> S754_nan.
Proof.
  unfold of_long. destruct (z <? 0)%Z.
  - rewrite opp_spec, of_uint63_spec.
    pose proof (binary_normalize_not_nan (Uint63.to_Z (Uint63.of_Z (- z))) 0 false) as H.
    destruct (binary_normalize _ _ _ _ _); simpl; congruence.
  - rewrite of_uint63_spec. apply binary_normalize_not_nan.
Qed.

Lemma of_long_eqb_refl (z : Z) : (of_long z =? of_long z) = true.
Proof. apply eqb_refl_not_nan, of_long_not_nan. Qed.

Lemma digits2_pos_lower (p : positive) :
  (2 ^ (Z.pos (digits2_pos p) - 1) <= Z.pos p)%Z.
Proof.
  induction p as [p IH|p IH| ]; cbn [digits2_pos].
  - rewrite Pos2Z.inj_succ.
    replace (Z.succ (Z.pos (digits2_pos p)) - 1)%Z
      with (Z.succ (Z.pos (digits2_pos p) - 1))%Z by lia.
    rewrite Z.pow_succ_r by lia. lia.
  - rewrite Pos2Z.inj_succ.
    replace (Z.succ (Z.pos (digits2_pos p)) - 1)%Z
      with (Z.succ (Z.pos (digits2_pos p) - 1))%Z by lia.
    rewrite Z.pow_succ_r by lia. lia.
  - simpl. lia.
Qed.

Lemma digits2_pos_bound (p : positive) :
  (Z.pos p < 2 ^ 53)%Z -> (Z.pos (digits2_pos p) <= 53)%Z.
Proof.
  intros H. pose proof (digits2_pos_lower p) as L.
  destruct (Z.le_gt_cases (Z.pos (digits2_pos p)) 53) as [|G]; [assumption|].
  assert (2 ^ 53 <= 2 ^ (Z.pos (digits2_pos p) - 1))%Z by (apply Z.pow_le_mono_r; lia).
  lia.
Qed.

Lemma digits2_pos_iter_xO (p k : positive) :
  Z.pos (digits2_pos (PosDef.Pos.iter xO p k)) = (Z.pos (digits2_pos p) + Z.pos k)%Z.
Proof.
  induction k as [|k IH] using Pos.peano_ind.
  - simpl. lia.
  - change (PosDef.Pos.iter xO p (Pos.succ k)) with (Pos.iter xO p (Pos.succ k)).
    rewrite Pos.iter_succ. cbn [digits2_pos].
    change (Pos.iter xO p k) with (PosDef.Pos.iter xO p k). lia.
Qed.

Lemma fexp_canonical (ez : Z) :
  (-1074 <= ez)%Z -> (fexp prec emax (53 + ez) - ez = 0)%Z.
Proof.
  intros H. unfold fexp, SpecFloat.emin, prec, emax.
  change IntDef.Z.max with Z.max. lia.
Qed.

Lemma shr_fexp_canonical (mz : positive) (ez : Z) :
  Z.pos (digits2_pos mz) = 53%Z -> (-1074 <= ez)%Z ->
  shr_fexp prec emax (Z.pos mz) ez loc_Exact =
    ({| shr_m := Z.pos mz; shr_r := false; shr_s := false |}, ez).
Proof.
  intros Hd He. unfold shr_fexp. cbn [Zdigits2]. rewrite Hd, (fexp_canonical ez He).
  reflexivity.
Qed.

(** A significand of 53 digits with an exponent in range is not rounded. *)
Lemma binary_round_aux_canonical (s : bool) (mz : positive) (ez : Z) :
  Z.pos (digits2_pos mz) = 53%Z -> (-1074 <= ez <= 971)%Z ->
  binary_round_aux prec emax s (Z.pos mz) ez loc_Exact = S754_finite s mz ez.
Proof.
  intros Hd He. unfold binary_round_aux.
  rewrite (shr_fexp_canonical mz ez Hd) by lia.
  cbn [shr_m loc_of_shr_record round_nearest_even shr_r shr_s].
  rewrite (shr_fexp_canonical mz ez Hd) by lia.
  cbn [shr_m].
  replace (ez <=? emax - prec)%Z with true; [reflexivity|].
  symmetry. apply Z.leb_le. unfold emax, prec. lia.
Qed.

(** A positive integer below 2^53 is a positive finite number. *)
Lemma binary_normalize_pos (p : positive) :
  (Z.pos p < 2 ^ 53)%Z ->
  exists m e, binary_normalize prec emax (Z.pos p) 0 false = S754_finite false m e.
Proof.
  intros H. pose proof (digits2_pos_bound p H) as D.
  assert (D1 : (1 <= Z.pos (digits2_pos p))%Z) by lia.
  assert (F : fexp prec emax (Z.pos (digits2_pos p) + 0) = (Z.pos (digits2_pos p) - 53)%Z).
  { unfold fexp, SpecFloat.emin, prec, emax. change IntDef.Z.max with Z.max. lia. }
  unfold binary_normalize, binary_round. rewrite F. unfold shl_align.
  destruct (Z.pos (digits2_pos p) - 53 - 0)%Z as [|d|d] eqn:E.
  - exists p, 0%Z. apply binary_round_aux_canonical; lia.
  - lia.
  - eexists. eexists. apply binary_round_aux_canonical.
    + rewrite digits2_pos_iter_xO. lia.
    + lia.
Qed.

Lemma of_long_pos_finite (w : Z) :
  (0 < w < 2 ^ 53)%Z -> exists m e, Prim2SF (of_long w) = S754_finite false m e.
Proof.
  intros H. unfold of_long.
  destruct (Z.ltb_spec w 0) as [|_]; [lia|].
  rewrite of_uint63_spec, Uint63.of_Z_spec.
  rewrite Z.mod_small by (change Uint63.wB with (2 ^ 63)%Z; lia).
  destruct w as [|p|p]; try lia.
  apply binary_normalize_pos. lia.
Qed.

(** Dividing a positive integer by the integer zero gives +Infinity. *)
Lemma of_long_div_zero (w : Z) :
  (0 < w < 2 ^ 53)%Z -> of_long w / of_long 0 = infinity.
Proof.
  intros H. apply Prim2SF_inj. rewrite div_spec.
  destruct (of_long_pos_finite w H) as (m & e & ->).
  reflexivity.
Qed.

End FloatFacts.

(** ** Zoom *)

Section Zoom.

Lemma Math_min_3 (p : number) :
  isNaN p = false -> Math_min [3; p] = if p <? 3 then p else 3.
Proof.
  intros Hp. unfold Math_min. cbn [min_from].
  change (isNaN 3) with false. change (is_neg_zero 3) with false.
  change (3 <? infinity) with true. cbn [andb].
  rewrite Hp. change (is_pos_zero 3) with false. rewrite andb_false_r.
  reflexivity.
Qed.

Lemma Math_max_tenth (m : number) :
  isNaN m = false -> Math_max [0.1; m] = if 0.1 <? m then m else 0.1.
Proof.
  intros Hm. unfold Math_max. cbn [max_from].
  change (isNaN 0.1) with false. change (is_pos_zero 0.1) with false.
  change (neg_infinity <? 0.1) with true. cbn [andb].
  rewrite Hm. change (is_neg_zero 0.1) with false. rewrite andb_false_r.
  reflexivity.
Qed.

Lemma zoomFactor_finite (d : Direction) :
  exists m e, Prim2SF (zoomFactor d) = S754_finite false m e.
Proof. destruct d; vm_compute; eauto. Qed.

(** One zoom step keeps a scale that is within the bounds within them. *)
Lemma zoomScale_in_bounds (d : Direction) (s : number) :
  scale_in_bounds s = true -> scale_in_bounds (zoomScale d s) = true.
Proof.
  unfold scale_in_bounds. intros H. apply andb_prop in H. destruct H as [Hlo Hhi].
  destruct (between_finite 0.1 3 s _ _ _ _ _ eq_refl eq_refl Hlo Hhi) as (m & e & Hs).
  destruct (zoomFactor_finite d) as (mf & ef & Hf).
  pose proof (isNaN_false _ (mul_finite_not_nan _ _ _ _ _ _ _ _ Hs Hf)) as Hp.
  unfold zoomScale. rewrite (Math_min_3 _ Hp).
  set (p := s * zoomFactor d) in *.
  assert (Hm : isNaN (if p <? 3 then p else 3) = false)
    by (destruct (p <? 3); [exact Hp | reflexivity]).
  rewrite (Math_max_tenth _ Hm).
  destruct (0.1 <? (if p <? 3 then p else 3)) eqn:Hcmp.
  - rewrite (ltb_leb _ _ Hcmp). cbn [andb].
    destruct (p <? 3) eqn:Hp3; [now apply ltb_leb | reflexivity].
  - reflexivity.
Qed.

End Zoom.

Lemma after_cons (h : Handler) (hs : list Handler) (st : AppState) :
  after (h :: hs) st = after hs (fst (h st)).
Proof. reflexivity. Qed.

Lemma handleZoom_some (d : Direction) (st : AppState) (p : ImageState) :
  profileImage st = Some p ->
  fst (handleZoom d st) =
    {| profileImage := Some (with_scale (zoomScale d (scale p)) p);
       frameImage := frameImage st |}.
Proof. intros H. unfold handleZoom, setProfileImage. now rewrite H. Qed.

(** C2.  A photo whose scale is within [0.1, 3] keeps a scale within
    [0.1, 3] after any finite sequence of zoom-in and zoom-out clicks: every
    click multiplies by 1.1 or 0.9 and clamps with [Math.max]/[Math.min]. *)
Theorem zoom_keeps_scale_in_bounds :
  forall (ds : list Direction) (st : AppState) (p : ImageState),
    profileImage st = Some p ->
    scale_in_bounds (scale p) = true ->
    exists p', profileImage (after (map handleZoom ds) st) = Some p' /\
               scale_in_bounds (scale p') = true.
Proof.
  induction ds as [|d ds IH]; intros st p Hst Hb.
  - exists p. split; [exact Hst | exact Hb].
  - cbn [map]. rewrite after_cons.
    apply (IH _ (with_scale (zoomScale d (scale p)) p)).
    + rewrite (handleZoom_some d st p Hst). reflexivity.
    + cbn [scale with_scale]. now apply zoomScale_in_bounds.
Qed.

Lemma zoom_keeps_scale_in_bounds_witness :
  exists p', profileImage
               (after (map handleZoom [zoom_in; zoom_in; zoom_out; zoom_in])
                      {| profileImage := Some (mkImageState "data:image/png;base64,AA" 0 0 2.9 0);
                         frameImage := Some "/frames/DP.png" |}) = Some p' /\
             scale_in_bounds (scale p') = true.
Proof.
  apply (zoom_keeps_scale_in_bounds [zoom_in; zoom_in; zoom_out; zoom_in] _
           (mkImageState "data:image/png;base64,AA" 0 0 2.9 0)).
  - reflexivity.
  - reflexivity.
Defined.

(** C3.  Fifty zoom-in clicks on a photo of scale 1 leave the scale at
    exactly 3, the clamp bound, whereas fifty unclamped multiplications by 1.1
    would give a value above 117. *)
Theorem fifty_zoom_ins_reach_three :
  forall (s : string) (px py rot : number) (f : option string),
    after (repeat (handleZoom zoom_in) 50)
          {| profileImage := Some (mkImageState s px py 1 rot); frameImage := f |} =
      {| profileImage := Some (mkImageState s px py 3 rot); frameImage := f |}
    /\ (unclamped 1.1 50 1 =? 3) = false
    /\ (117 <? unclamped 1.1 50 1) = true.
Proof.
  intros s px py rot f. split; [|split]; vm_compute; reflexivity.
Qed.

(** ** Rotation *)

Lemma quarter_turns_1000 : quarter_turns_agree 1000 = true.
Proof. vm_compute. reflexivity. Qed.

(** C10.  The rotate button replaces the rotation [r] by [r + 90] and keeps
    the source, the offsets and the scale; nothing wraps or clamps the sum:
    from 270 the next values are 360 and 450, and [k] clicks from 0 give
    [90 * k] for every [k] up to 1000. *)
Theorem rotate_button_adds_90 :
  forall (st : AppState) (p : ImageState),
    profileImage st = Some p ->
    handleRotate st =
      ({| profileImage :=
            Some {| src := src p; x := x p; y := y p; scale := scale p;
                    rotation := rotation p + 90 |};
          frameImage := frameImage st |},
       [toast_success "Image rotated!"])
    /\ (rotation p = 270 -> rotation p + 90 = 360 /\ rotation p + 90 + 90 = 450)
    /\ (forall k : nat, (k <= 1000)%nat ->
          exists q, profileImage
                      (after (repeat handleRotate k)
                             {| profileImage := Some (mkImageState EmptyString 0 0 1 0);
                                frameImage := None |}) = Some q
                    /\ rotation q = of_long (90 * Z.of_nat k)).
Proof.
  intros st p Hst. split; [|split].
  - unfold handleRotate, setProfileImage. rewrite Hst. reflexivity.
  - intros ->. split; reflexivity.
  - intros k Hk.
    pose proof quarter_turns_1000 as H. unfold quarter_turns_agree in H.
    rewrite forallb_forall in H. specialize (H k).
    assert (Hin : In k (seq 0 1001)) by (apply in_seq; lia).
    specialize (H Hin).
    destruct (profileImage (after (repeat handleRotate k) _)) as [q|]; [|discriminate].
    exists q. split; [reflexivity | now apply Leibniz.eqb_spec].
Qed.

Lemma rotate_button_adds_90_witness :
  handleRotate {| profileImage := Some (mkImageState "data:image/png;base64,AA" 12 (-7) 1.5 270);
                  frameImage := Some "/frames/DP.png" |} =
    ({| profileImage := Some (mkImageState "data:image/png;base64,AA" 12 (-7) 1.5 (270 + 90));
        frameImage := Some "/frames/DP.png" |},
     [toast_success "Image rotated!"]).
Proof.
  apply (rotate_button_adds_90
           {| profileImage := Some (mkImageState "data:image/png;base64,AA" 12 (-7) 1.5 270);
              frameImage := Some "/frames/DP.png" |}
           (mkImageState "data:image/png;base64,AA" 12 (-7) 1.5 270)).
  reflexivity.
Defined.

Lemma slider_positions_checked : slider_positions_ok = true.
Proof. vm_compute. reflexivity. Qed.

Lemma slider_position_ok (k : Z) :
  (slider_min <= k <= slider_max)%Z ->
  let r := parseInt (slider_value k) in
  r = of_long k /\ (0 <=? r) = true /\ (r <=? 360) = true
  /\ (r <? 360) = (k <? 360)%Z.
Proof.
  unfold slider_min, slider_max. intros Hk.
  pose proof slider_positions_checked as H. unfold slider_positions_ok in H.
  rewrite forallb_forall in H. specialize (H k).
  assert (Hin : In k (map Z.of_nat (seq 0 361))).
  { apply in_map_iff. exists (Z.to_nat k). split; [lia | apply in_seq; lia]. }
  specialize (H Hin). cbv zeta in H |- *.
  repeat (apply andb_prop in H; destruct H as [H ?]).
  repeat split; try assumption.
  - now apply Leibniz.eqb_spec.
  - now apply Bool.eqb_prop.
Qed.

(** C6, as the code has it.  A slider input at position [k], a whole number
    from 0 to 360, sets the rotation to [k] and leaves the other fields
    alone; the stored value lies in the closed interval [0, 360], and it is
    below 360 exactly when the position is. *)
Theorem slider_rotation_within_0_360 :
  forall (k : Z) (st : AppState) (p : ImageState),
    (slider_min <= k <= slider_max)%Z ->
    profileImage st = Some p ->
    slider_onChange (slider_value k) st =
      ({| profileImage :=
            Some {| src := src p; x := x p; y := y p; scale := scale p;
                    rotation := of_long k |};
          frameImage := frameImage st |}, [])
    /\ (0 <=? of_long k) = true /\ (of_long k <=? 360) = true
    /\ (of_long k <? 360) = (k <? 360)%Z.
Proof.
  intros k st p Hk Hst.
  destruct (slider_position_ok k Hk) as (Hr & H0 & H360 & Hlt). cbv zeta in *.
  rewrite <- Hr. repeat split; try assumption.
  unfold slider_onChange, handlePreciseRotate, setProfileImage. rewrite Hst. reflexivity.
Qed.

Lemma slider_rotation_within_0_360_witness :
  slider_onChange (slider_value 135)
    {| profileImage := Some (mkImageState "data:image/png;base64,AA" 4 5 1 90);
       frameImage := Some "/frames/DP.png" |} =
    ({| profileImage := Some (mkImageState "data:image/png;base64,AA" 4 5 1 (of_long 135));
        frameImage := Some "/frames/DP.png" |}, [])
  /\ (0 <=? of_long 135) = true /\ (of_long 135 <=? 360) = true
  /\ (of_long 135 <? 360) = (135 <? 360)%Z.
Proof.
  apply (slider_rotation_within_0_360 135
           {| profileImage := Some (mkImageState "data:image/png;base64,AA" 4 5 1 90);
              frameImage := Some "/frames/DP.png" |}
           (mkImageState "data:image/png;base64,AA" 4 5 1 90)).
  - unfold slider_min, slider_max. lia.
  - reflexivity.
Defined.

(** C6 as stated fails at the right end of the slider: position 360 stores the
    rotation 360, which is not below 360. *)
Lemma slider_end_stores_360 :
  slider_onChange (slider_value 360)
    {| profileImage := Some (mkImageState "data:image/png;base64,AA" 0 0 1 0);
       frameImage := Some "/frames/DP.png" |} =
    ({| profileImage := Some (mkImageState "data:image/png;base64,AA" 0 0 1 360);
        frameImage := Some "/frames/DP.png" |}, [])
  /\ (360 <? 360) = false.
Proof. split; vm_compute; reflexivity. Qed.

(** ** Upload and clear *)

(** C8.  A file whose declared content type does not start with [image/] is
    rejected with an error toast: the state, and with it the photo and its
    offset, scale and rotation, is returned as it was, and no read is
    started, so no later callback replaces the photo either. *)
Theorem non_image_upload_rejected :
  forall (st : AppState) (file : File) (others : list File) (kind : UploadKind),
    startsWith (file_type file) "image/" = false ->
    handleImageUpload (file :: others) kind st =
      (st, [toast_error "Please select a valid image file"], None).
Proof.
  intros st file others kind H. unfold handleImageUpload. rewrite H. reflexivity.
Qed.

Lemma non_image_upload_rejected_witness :
  handleImageUpload [mkFile "application/pdf" "data:application/pdf;base64,AA"] profile
    (scenario_state 12 (-3)) =
    (scenario_state 12 (-3), [toast_error "Please select a valid image file"], None).
Proof.
  apply (non_image_upload_rejected (scenario_state 12 (-3))
           (mkFile "application/pdf" "data:application/pdf;base64,AA") [] profile).
  reflexivity.
Defined.

(** Every operation but Clear All leaves the frame path as it is. *)
Lemma perform_keeps_frame (a : Action) (s : AppState * DragState) :
  is_clear a = false -> frameImage (fst (perform a s)) = frameImage (fst s).
Proof.
  destruct s as [st drag]. destruct a; cbn [perform is_clear fst]; intros H;
    try discriminate; try reflexivity.
  - unfold handleImageUpload. destruct files as [|file others]; [reflexivity|].
    destruct (negb _); reflexivity.
  - unfold handleMouseMove. destruct (isDragging drag), (profileImage st); reflexivity.
  - unfold handleRotate. destruct (profileImage st); reflexivity.
  - unfold slider_onChange, handlePreciseRotate. destruct (profileImage st); reflexivity.
  - unfold handleZoom. destruct (profileImage st); reflexivity.
Qed.

(** C9 does not hold of the code: the Clear All button replaces the frame
    path [/frames/DP.png] of the initial state by [/frames/sample-frame.svg],
    and an export after the next upload loads that other frame.  Clear All
    is the only operation that does so. *)
Theorem clearAll_replaces_frame :
  frameImage initialState = Some "/frames/DP.png"
  /\ frameImage (fst (perform act_clear (initialState, initialDragState)))
     = Some "/frames/sample-frame.svg"
  /\ (forall file : File,
        frame_used (scenario_dom 300 300) (fst (reader_onload file profile initialState))
          = Some "/frames/DP.png"
        /\ frame_used (scenario_dom 300 300)
             (fst (reader_onload file profile (fst (clearAll initialState))))
          = Some "/frames/sample-frame.svg")
  /\ (forall (a : Action) (s : AppState * DragState),
        is_clear a = false -> frameImage (fst (perform a s)) = frameImage (fst s)).
Proof.
  split; [reflexivity | split; [reflexivity | split]].
  - intros file; split; reflexivity.
  - exact perform_keeps_frame.
Qed.

(** ** Export: the request and the two decode callbacks *)

Section ExportRequest.

Variables (dom dom' : Dom) (st : AppState).
Variables (p : ImageState) (f : string) (clientWidth clientHeight : Z).
Variables (profileImg frameImg : Canvas.Image).

Hypothesis canvas_mounted : canvasRef dom = true.
Hypothesis context_available : context2d dom = true.
Hypothesis container_mounted : canvasContainerRef dom = Some (clientWidth, clientHeight).
Hypothesis photo_present : profileImage st = Some p.
Hypothesis frame_present : frameImage st = Some f.
Hypothesis frame_path : nonempty f = true.

(** The job an accepted request captures. *)
Let job : ExportJob :=
  {| job_profile := p;
     job_frame := f;
     displayedFrameWidth := or_long (option_map fst (frameImgElementRef dom)) clientWidth;
     displayedFrameHeight := or_long (option_map snd (frameImgElementRef dom)) clientHeight |}.

Lemma handleDownload_accepts : handleDownload dom st = download_loading job.
Proof.
  unfold handleDownload.
  rewrite canvas_mounted, photo_present, frame_present, container_mounted,
    frame_path, context_available.
  reflexivity.
Qed.

Lemma export_request_accepts : export_request dom st = (awaiting_profile job, []).
Proof. unfold export_request. now rewrite handleDownload_accepts. Qed.

Lemma export_run_completes :
  export_run dom st [profile_loaded profileImg; frame_loaded dom' frameImg] =
    (exported (frameImg_onload job dom' profileImg frameImg),
     [toast_success "Image downloaded successfully!"]).
Proof. unfold export_run. rewrite export_request_accepts. reflexivity. Qed.

End ExportRequest.

Lemma export_step_idle (ev : LoadEvent) : export_step idle ev = (idle, []).
Proof. destruct ev; reflexivity. Qed.

Lemma export_run_rejected (dom : Dom) (st : AppState) (ts : list Toast) :
  export_request dom st = (idle, ts) ->
  forall evs, export_run dom st evs = (idle, ts).
Proof.
  intros H evs. unfold export_run. rewrite H. clear H.
  induction evs as [|ev evs IH]; [reflexivity|].
  cbn [fold_left fst snd]. rewrite export_step_idle, app_nil_r. exact IH.
Qed.

Lemma handleDownload_rejects (dom : Dom) (st : AppState) :
  canvasRef dom = false \/ profileImage st = None \/ frameImage st = None
  \/ frameImage st = Some EmptyString \/ canvasContainerRef dom = None ->
  handleDownload dom st =
    download_rejected (toast_error "Please upload both profile image and frame first!").
Proof.
  unfold handleDownload. intros [H|[H|[H|[H|H]]]]; rewrite H.
  - reflexivity.
  - now destruct (canvasRef dom).
  - now destruct (canvasRef dom), (profileImage st).
  - destruct (canvasRef dom), (profileImage st), (canvasContainerRef dom) as [[? ?]|];
      reflexivity.
  - now destruct (canvasRef dom), (profileImage st), (frameImage st).
Qed.

(** C1, as the code has it.  With a frame element of positive width and
    height the export puts the photo's centre at
    [(frameWidth/2 + x) * (naturalWidth/frameWidth)] and
    [(frameHeight/2 + y) * (naturalHeight/frameHeight)], each computed in
    binary64; for a frame shown at 300 and 1000 wide in natural size this is
    600 at offset 30 and 500, the centre, at offset 0, and likewise for the
    height. *)
Theorem export_anchor_mapping :
  forall (dom dom' : Dom) (st : AppState) (p : ImageState) (f : string)
         (clientWidth clientHeight frameWidth frameHeight : Z)
         (profileImg frameImg : Canvas.Image),
    canvasRef dom = true -> context2d dom = true ->
    canvasContainerRef dom = Some (clientWidth, clientHeight) ->
    frameImgElementRef dom = Some (frameWidth, frameHeight) ->
    (0 < frameWidth)%Z -> (0 < frameHeight)%Z ->
    profileImage st = Some p -> frameImage st = Some f -> nonempty f = true ->
    let anchorX := (of_long frameWidth / 2 + x p)
                   * (of_long (Canvas.width frameImg) / of_long frameWidth) in
    let anchorY := (of_long frameHeight / 2 + y p)
                   * (of_long (Canvas.height frameImg) / of_long frameHeight) in
    (exists e,
        fst (export_run dom st [profile_loaded profileImg; frame_loaded dom' frameImg])
          = exported e
        /\ anchors e = [(anchorX, anchorY)])
    /\ (frameWidth = 300%Z -> Canvas.width frameImg = 1000%Z ->
        (x p = 30 -> anchorX = 600) /\ (x p = 0 -> anchorX = 500))
    /\ (frameHeight = 300%Z -> Canvas.height frameImg = 1000%Z ->
        (y p = 30 -> anchorY = 600) /\ (y p = 0 -> anchorY = 500)).
Proof.
  intros dom dom' st p f cw ch fw fh profileImg frameImg
         Hc Hx Hcont Hframe Hfw Hfh Hp Hf Hne anchorX anchorY.
  split; [|split].
  - eexists. split.
    + rewrite (export_run_completes dom dom' st p f cw ch profileImg frameImg
                 Hc Hx Hcont Hp Hf Hne).
      reflexivity.
    + unfold anchors, frameImg_onload, drawing. cbn [export_drawing flat_map app].
      unfold actualX, actualY, scaleX, scaleY.
      cbn [displayedFrameWidth displayedFrameHeight job_profile].
      rewrite Hframe. cbn [option_map fst snd or_long].
      destruct (Z.eqb_spec fw 0) as [E|_]; [lia|].
      destruct (Z.eqb_spec fh 0) as [E|_]; [lia|].
      reflexivity.
  - subst anchorX. intros -> ->. split; intros ->; reflexivity.
  - subst anchorY. intros -> ->. split; intros ->; reflexivity.
Qed.

Lemma export_anchor_mapping_witness :
  exists e,
    fst (export_run (scenario_dom 300 300) (scenario_state 30 0)
           [profile_loaded (blank 640 480);
            frame_loaded (scenario_dom 300 300) (blank 1000 1000)]) = exported e
    /\ anchors e =
         [((of_long 300 / 2 + 30) * (of_long 1000 / of_long 300),
           (of_long 300 / 2 + 0) * (of_long 1000 / of_long 300))].
Proof.
  apply (export_anchor_mapping (scenario_dom 300 300) (scenario_dom 300 300)
           (scenario_state 30 0) (mkImageState "data:image/png;base64,AA" 30 0 1 0)
           "/frames/DP.png" 300 300 300 300 (blank 640 480) (blank 1000 1000));
    try reflexivity; lia.
Defined.

(** C1 as stated fails in its last part: at offset 0 the anchor of a frame of
    natural width 1000 shown 343 wide is 499.99999999999994, not the centre
    500. *)
Lemma zero_offset_anchor_off_centre :
  scenario_anchors 343 343 1000 1000 0 0 = [(499.99999999999994, 499.99999999999994)]
  /\ (499.99999999999994 =? of_long 1000 / 2) = false.
Proof. split; vm_compute; reflexivity. Qed.

(** C4, as the code has it.  The export has no failure for a layout of size
    zero.  Whatever the sizes of the frame element and the container, a
    request with a photo, a frame path, a mounted canvas and a context is
    accepted and runs to the download; the displayed width is the frame
    element's, or the container's when that is zero or absent, and the scale
    factor is the quotient of the natural by the displayed width even when
    the latter is zero: it is then +Infinity for every frame of positive
    natural width. *)
Theorem zero_layout_is_not_rejected :
  forall (dom dom' : Dom) (st : AppState) (p : ImageState) (f : string)
         (clientWidth clientHeight : Z) (profileImg frameImg : Canvas.Image),
    canvasRef dom = true -> context2d dom = true ->
    canvasContainerRef dom = Some (clientWidth, clientHeight) ->
    profileImage st = Some p -> frameImage st = Some f -> nonempty f = true ->
    exists job,
      handleDownload dom st = download_loading job
      /\ displayedFrameWidth job =
           or_long (option_map fst (frameImgElementRef dom)) clientWidth
      /\ displayedFrameHeight job =
           or_long (option_map snd (frameImgElementRef dom)) clientHeight
      /\ (option_map fst (frameImgElementRef dom) = Some 0%Z ->
          displayedFrameWidth job = clientWidth)
      /\ export_run dom st [profile_loaded profileImg; frame_loaded dom' frameImg] =
           (exported (frameImg_onload job dom' profileImg frameImg),
            [toast_success "Image downloaded successfully!"])
      /\ List.length (export_drawing (frameImg_onload job dom' profileImg frameImg)) = 9%nat
      /\ scaleX job frameImg =
           of_long (Canvas.width frameImg) / of_long (displayedFrameWidth job)
      /\ (displayedFrameWidth job = 0%Z -> (0 < Canvas.width frameImg < 2 ^ 53)%Z ->
          scaleX job frameImg = infinity).
Proof.
  intros dom dom' st p f cw ch profileImg frameImg Hc Hx Hcont Hp Hf Hne.
  eexists. split; [|split; [|split; [|split; [|split; [|split; [|split]]]]]].
  - exact (handleDownload_accepts dom st p f cw ch Hc Hx Hcont Hp Hf Hne).
  - reflexivity.
  - reflexivity.
  - cbn [displayedFrameWidth]. intros ->. reflexivity.
  - exact (export_run_completes dom dom' st p f cw ch profileImg frameImg
             Hc Hx Hcont Hp Hf Hne).
  - reflexivity.
  - reflexivity.
  - unfold scaleX. intros -> Hw. now apply of_long_div_zero.
Qed.

Lemma zero_layout_is_not_rejected_witness :
  exists job,
    handleDownload (scenario_dom 0 0) (scenario_state 0 0) = download_loading job
    /\ displayedFrameWidth job = 0%Z
    /\ displayedFrameHeight job = 0%Z
    /\ (Some 0%Z = Some 0%Z -> displayedFrameWidth job = 0%Z)
    /\ export_run (scenario_dom 0 0) (scenario_state 0 0)
         [profile_loaded (blank 640 480); frame_loaded (scenario_dom 0 0) (blank 1000 1000)] =
         (exported (frameImg_onload job (scenario_dom 0 0) (blank 640 480) (blank 1000 1000)),
          [toast_success "Image downloaded successfully!"])
    /\ List.length (export_drawing
                 (frameImg_onload job (scenario_dom 0 0) (blank 640 480) (blank 1000 1000)))
       = 9%nat
    /\ scaleX job (blank 1000 1000) = of_long 1000 / of_long (displayedFrameWidth job)
    /\ (displayedFrameWidth job = 0%Z -> (0 < 1000 < 2 ^ 53)%Z ->
        scaleX job (blank 1000 1000) = infinity).
Proof.
  apply (zero_layout_is_not_rejected (scenario_dom 0 0) (scenario_dom 0 0)
           (scenario_state 0 0) (mkImageState "data:image/png;base64,AA" 0 0 1 0)
           "/frames/DP.png" 0 0 (blank 640 480) (blank 1000 1000));
    reflexivity.
Defined.

(** C4 as stated fails: with a frame element and a container of size zero the
    export is not skipped; it runs to the download with infinite scale
    factors and an anchor that is not a number. *)
Lemma zero_layout_exports_with_infinite_scale :
  exists job e,
    handleDownload (scenario_dom 0 0) (scenario_state 0 0) = download_loading job
    /\ scenario_export 0 0 1000 1000 0 0 =
         (exported e, [toast_success "Image downloaded successfully!"])
    /\ link_download e = "twibbon-image.png"
    /\ scaleX job (blank 1000 1000) = infinity
    /\ scaleY job (blank 1000 1000) = infinity
    /\ anchors e = [(nan, nan)].
Proof.
  eexists. eexists. split; [reflexivity|].
  split; [reflexivity|]. repeat split; vm_compute; reflexivity.
Qed.

(** C5, as the code has it.  A request is refused with the error toast, and
    nothing is left waiting that a later event could complete, when the
    state holds no photo or no frame path or the canvas or its container is
    not mounted.  Any other request with a context is accepted without a
    toast while both images are still to be decoded: the handler waits for
    the photo's load event, then for the frame's, and only then draws and
    triggers the download.  Without a 2D context the handler returns
    silently. *)
Theorem export_waits_for_decoding :
  forall (dom dom' : Dom) (st : AppState) (profileImg frameImg : Canvas.Image),
    (canvasRef dom = false \/ profileImage st = None \/ frameImage st = None
     \/ frameImage st = Some EmptyString \/ canvasContainerRef dom = None ->
     forall evs : list LoadEvent,
       export_run dom st evs =
         (idle, [toast_error "Please upload both profile image and frame first!"]))
    /\ (forall (p : ImageState) (f : string) (clientWidth clientHeight : Z),
          canvasRef dom = true -> context2d dom = true ->
          canvasContainerRef dom = Some (clientWidth, clientHeight) ->
          profileImage st = Some p -> frameImage st = Some f -> nonempty f = true ->
          exists job,
            export_request dom st = (awaiting_profile job, [])
            /\ export_step (awaiting_profile job) (profile_loaded profileImg) =
                 (awaiting_frame job profileImg, [])
            /\ export_step (awaiting_frame job profileImg) (frame_loaded dom' frameImg) =
                 (exported (frameImg_onload job dom' profileImg frameImg),
                  [toast_success "Image downloaded successfully!"])
            /\ link_download (frameImg_onload job dom' profileImg frameImg)
               = "twibbon-image.png")
    /\ (forall (p : ImageState) (f : string) (clientWidth clientHeight : Z),
          canvasRef dom = true -> context2d dom = false ->
          canvasContainerRef dom = Some (clientWidth, clientHeight) ->
          profileImage st = Some p -> frameImage st = Some f -> nonempty f = true ->
          forall evs : list LoadEvent, export_run dom st evs = (idle, [])).
Proof.
  intros dom dom' st profileImg frameImg. split; [|split].
  - intros H evs. apply export_run_rejected.
    unfold export_request. now rewrite (handleDownload_rejects dom st H).
  - intros p f cw ch Hc Hx Hcont Hp Hf Hne. eexists. split; [|split; [|split]].
    + exact (export_request_accepts dom st p f cw ch Hc Hx Hcont Hp Hf Hne).
    + reflexivity.
    + reflexivity.
    + reflexivity.
  - intros p f cw ch Hc Hx Hcont Hp Hf Hne evs. apply export_run_rejected.
    unfold export_request, handleDownload. now rewrite Hc, Hp, Hf, Hcont, Hne, Hx.
Qed.

Lemma export_waits_for_decoding_witness :
  (forall evs : list LoadEvent,
      export_run (scenario_dom 300 300) initialState evs =
        (idle, [toast_error "Please upload both profile image and frame first!"]))
  /\ exists job,
       export_request (scenario_dom 300 300) (scenario_state 0 0) = (awaiting_profile job, [])
       /\ export_step (awaiting_profile job) (profile_loaded (blank 640 480)) =
            (awaiting_frame job (blank 640 480), [])
       /\ export_step (awaiting_frame job (blank 640 480))
            (frame_loaded (scenario_dom 300 300) (blank 1000 1000)) =
            (exported (frameImg_onload job (scenario_dom 300 300)
                         (blank 640 480) (blank 1000 1000)),
             [toast_success "Image downloaded successfully!"])
       /\ link_download (frameImg_onload job (scenario_dom 300 300)
                           (blank 640 480) (blank 1000 1000))
          = "twibbon-image.png".
Proof.
  split.
  - apply (export_waits_for_decoding (scenario_dom 300 300) (scenario_dom 300 300)
             initialState (blank 640 480) (blank 1000 1000)).
    right. left. reflexivity.
  - apply (export_waits_for_decoding (scenario_dom 300 300) (scenario_dom 300 300)
             (scenario_state 0 0) (blank 640 480) (blank 1000 1000)
             ) with (p := mkImageState "data:image/png;base64,AA" 0 0 1 0)
                    (f := "/frames/DP.png") (clientWidth := 300%Z) (clientHeight := 300%Z);
      reflexivity.
Defined.

(** C5 as stated fails: a request made while the photo and the frame are
    still to be decoded raises no toast; it stays pending, and the two load
    events complete it with the download. *)
Lemma pending_decode_is_not_reported :
  exists job e,
    export_request (scenario_dom 300 300) (scenario_state 0 0) = (awaiting_profile job, [])
    /\ pending (awaiting_profile job) = true
    /\ scenario_export 300 300 1000 1000 0 0 =
         (exported e, [toast_success "Image downloaded successfully!"])
    /\ link_download e = "twibbon-image.png".
Proof.
  eexists. eexists. split; [reflexivity|]. split; [reflexivity|].
  split; reflexivity.
Qed.

(** ** Export: what ends up on the canvas *)

Section Composition.

Variable blend : Canvas.Pixel -> Canvas.Pixel -> Canvas.Pixel.
Variable resample :
  list Canvas.Transform -> Canvas.Image -> number -> number -> number -> number -> Canvas.Bitmap.
Variable erased : list Canvas.Transform -> number -> number -> number -> number -> Z -> Z -> bool.

Variables (job : ExportJob) (dom' : Dom) (profileImg frameImg : Canvas.Image).

(** Drawing an image onto itself's rectangle under the identity copies its
    opaque pixels. *)
Lemma layer_identity (img : Canvas.Image) (i j : Z) :
  Canvas.inside (Canvas.width img) (Canvas.height img) i j = true ->
  Canvas.layer resample [] img 0 0 (of_long (Canvas.width img)) (of_long (Canvas.height img)) i j
    = Canvas.pixels img i j.
Proof.
  intros Hin. unfold Canvas.layer.
  change (0 =? 0) with true. rewrite !of_long_eqb_refl. cbn [andb].
  now rewrite Hin.
Qed.

Lemma over_opaque (s d : Canvas.Pixel) :
  Canvas.alpha s = 255%Z -> Canvas.over blend s d = s.
Proof. intros H. unfold Canvas.over. now rewrite H. Qed.

(** Between the two assignments of the canvas size and the drawing of the
    frame, the transformation is back to the identity and the size is the
    frame's. *)
Lemma state_before_frame (s0 : Canvas.State) :
  let s := Canvas.run blend resample erased
             (firstn 8 (drawing job dom' profileImg frameImg)) s0 in
  Canvas.ctm s = [] /\ Canvas.cv_width s = Canvas.width frameImg
  /\ Canvas.cv_height s = Canvas.height frameImg.
Proof.
  unfold Canvas.run, drawing. cbn [firstn fold_left Canvas.exec].
  destruct (is_finite _ && is_finite _); cbn [Canvas.exec];
    destruct (is_finite _); cbn; repeat split.
Qed.

End Composition.

(** C7.  The export draws the photo, restores the context and then, as its
    last command, draws the frame at (0, 0) with the full size of the
    canvas, which is the frame's natural size.  On the resulting surface
    every pixel where the frame is opaque has the frame's colour, whatever
    the photo, its offset, scale and rotation, and whatever the canvas held
    before. *)
Theorem frame_drawn_last_covers_photo :
  forall (blend : Canvas.Pixel -> Canvas.Pixel -> Canvas.Pixel)
         (resample : list Canvas.Transform -> Canvas.Image ->
                     number -> number -> number -> number -> Canvas.Bitmap)
         (erased : list Canvas.Transform -> number -> number -> number -> number ->
                   Z -> Z -> bool)
         (job : ExportJob) (dom' : Dom) (profileImg frameImg : Canvas.Image)
         (s0 : Canvas.State) (i j : Z),
    Canvas.inside (Canvas.width frameImg) (Canvas.height frameImg) i j = true ->
    Canvas.alpha (Canvas.pixels frameImg i j) = 255%Z ->
    (exists before dx dy dw dh,
        drawing job dom' profileImg frameImg =
          (before ++ [Canvas.drawImage profileImg dx dy dw dh;
                      Canvas.restore;
                      Canvas.drawImage frameImg 0 0
                        (of_long (Canvas.width frameImg))
                        (of_long (Canvas.height frameImg))])%list)
    /\ Canvas.cv_width
         (Canvas.run blend resample erased (drawing job dom' profileImg frameImg) s0)
       = Canvas.width frameImg
    /\ Canvas.cv_height
         (Canvas.run blend resample erased (drawing job dom' profileImg frameImg) s0)
       = Canvas.height frameImg
    /\ Canvas.surface
         (Canvas.run blend resample erased (drawing job dom' profileImg frameImg) s0) i j
       = Canvas.pixels frameImg i j.
Proof.
  intros blend resample erased job dom' profileImg frameImg s0 i j Hin Halpha.
  split.
  { exists (firstn 6 (drawing job dom' profileImg frameImg)).
    do 4 eexists. reflexivity. }
  pose proof (state_before_frame blend resample erased job dom' profileImg frameImg s0)
    as H. cbv zeta in H. destruct H as (Hctm & Hw & Hh).
  replace (drawing job dom' profileImg frameImg)
    with (firstn 8 (drawing job dom' profileImg frameImg)
          ++ [Canvas.drawImage frameImg 0 0
                (of_long (Canvas.width frameImg)) (of_long (Canvas.height frameImg))])%list
    by reflexivity.
  unfold Canvas.run in *. rewrite fold_left_app.
  set (s := fold_left _ (firstn 8 _) s0) in *.
  cbn [fold_left Canvas.exec Canvas.cv_width Canvas.cv_height Canvas.surface].
  rewrite Hctm, Hw, Hh, Hin.
  repeat split; try reflexivity.
  rewrite (layer_identity resample frameImg i j Hin).
  now apply over_opaque.
Qed.

Lemma frame_drawn_last_covers_photo_witness :
  Canvas.surface
    (Canvas.run take_source copy_resample erase_all
       (drawing tiny_job (scenario_dom 2 2) tiny_photo tiny_frame) empty_canvas) 0%Z 1%Z
  = opaque_red.
Proof.
  apply (frame_drawn_last_covers_photo take_source copy_resample erase_all
           tiny_job (scenario_dom 2 2) tiny_photo tiny_frame empty_canvas 0%Z 1%Z);
    reflexivity.
Defined.

(** ** Checks of the model on the specification's scenario A *)

(** Frame shown 300 by 300 with natural size 1000 by 1000, photo element 150
    by 150, no offset, scale 1: the photo is drawn 500 by 500 around
    (500, 500). *)
Example scenario_A_destination :
  exists job,
    handleDownload (scenario_dom 300 300) (scenario_state 0 0) = download_loading job
    /\ destWidth job (scenario_dom 300 300) (blank 640 480) (blank 1000 1000) = 500
    /\ destHeight job (scenario_dom 300 300) (blank 640 480) (blank 1000 1000) = 500
    /\ scenario_anchors 300 300 1000 1000 0 0 = [(500, 500)].
Proof. eexists. split; [reflexivity|]. repeat split; vm_compute; reflexivity. Qed.

(** Where the frame is transparent the photo stays visible. *)
Example transparent_frame_pixel_shows_photo :
  Canvas.surface
    (Canvas.run take_source copy_resample erase_all
       (drawing tiny_job (scenario_dom 2 2) tiny_photo tiny_frame) empty_canvas) 1%Z 1%Z
  = opaque_blue.
Proof. vm_compute. reflexivity. Qed.

(** * Further properties of the handlers *)

(** ** The order of binary64 numbers *)

Ltac cmp_cases :=
  repeat match goal with
  | H : context [PosDef.Pos.compare_cont Eq ?a ?b] |- _ =>
      change (PosDef.Pos.compare_cont Eq a b) with (Pos.compare a b) in H
  | |- context [PosDef.Pos.compare_cont Eq ?a ?b] =>
      change (PosDef.Pos.compare_cont Eq a b) with (Pos.compare a b)
  end;
  repeat match goal with
  | H : context [(?a ?= ?b)%Z] |- _ => destruct (Z.compare_spec a b); try subst
  | |- context [(?a ?= ?b)%Z] => destruct (Z.compare_spec a b); try subst
  | H : context [(?a ?= ?b)%positive] |- _ => destruct (Pos.compare_spec a b); try subst
  | |- context [(?a ?= ?b)%positive] => destruct (Pos.compare_spec a b); try subst
  end.

Ltac order_cases2 a b :=
  destruct a as [[|]|[|]| |[|] ? ?], b as [[|]|[|]| |[|] ? ?];
  simpl; try discriminate; try reflexivity; try congruence;
  intros; cmp_cases; simpl in *; try discriminate; try reflexivity; try lia.

Ltac order_cases3 a b c :=
  destruct a as [[|]|[|]| |[|] ? ?], b as [[|]|[|]| |[|] ? ?], c as [[|]|[|]| |[|] ? ?];
  simpl; try discriminate; try reflexivity;
  intros; cmp_cases; simpl in *; try discriminate; try reflexivity; try lia.

Section FloatOrder.

Lemma SFleb_trans a b c : SFleb a b = true -> SFleb b c = true -> SFleb a c = true.
Proof. unfold SFleb. order_cases3 a b c. Qed.

Lemma SFltb_leb_trans a b c : SFltb a b = true -> SFleb b c = true -> SFltb a c = true.
Proof. unfold SFleb, SFltb. order_cases3 a b c. Qed.

Lemma SFleb_ltb_trans a b c : SFleb a b = true -> SFltb b c = true -> SFltb a c = true.
Proof. unfold SFleb, SFltb. order_cases3 a b c. Qed.

Lemma SFltb_false_leb a b :
  a <> S754_nan -> b <> S754_nan -> SFltb a b = false -> SFleb b a = true.
Proof. unfold SFleb, SFltb. order_cases2 a b. Qed.

Lemma SFleb_ltb_false a b : SFleb a b = true -> SFltb b a = false.
Proof. unfold SFleb, SFltb. order_cases2 a b. Qed.

Lemma SFleb_antisym a b : SFleb a b = true -> SFleb b a = true -> SFeqb a b = true.
Proof. unfold SFleb, SFeqb. order_cases2 a b. Qed.

Lemma SFleb_not_nan_l a b : SFleb a b = true -> a <> S754_nan.
Proof. unfold SFleb. destruct a; simpl; congruence. Qed.

Lemma SFleb_not_nan_r a b : SFleb a b = true -> b <> S754_nan.
Proof. unfold SFleb. destruct a, b; simpl; congruence. Qed.

Lemma isNaN_spec (a : float) : isNaN a = false <-> Prim2SF a <> S754_nan.
Proof.
  split; [|apply isNaN_false].
  unfold isNaN. rewrite eqb_spec. unfold SFeqb. intros H E. rewrite E in H. discriminate.
Qed.

Lemma leb_trans (a b c : float) : (a <=? b) = true -> (b <=? c) = true -> (a <=? c) = true.
Proof. rewrite !leb_spec. apply SFleb_trans. Qed.

Lemma ltb_leb_trans (a b c : float) : (a <? b) = true -> (b <=? c) = true -> (a <? c) = true.
Proof. rewrite !leb_spec, !ltb_spec. apply SFltb_leb_trans. Qed.

Lemma leb_ltb_trans (a b c : float) : (a <=? b) = true -> (b <? c) = true -> (a <? c) = true.
Proof. rewrite !leb_spec, !ltb_spec. apply SFleb_ltb_trans. Qed.

Lemma ltb_false_leb (a b : float) :
  isNaN a = false -> isNaN b = false -> (a <? b) = false -> (b <=? a) = true.
Proof. rewrite !isNaN_spec, leb_spec, ltb_spec. apply SFltb_false_leb. Qed.

Lemma leb_ltb_false (a b : float) : (a <=? b) = true -> (b <? a) = false.
Proof. rewrite leb_spec, ltb_spec. apply SFleb_ltb_false. Qed.

Lemma leb_antisym (a b : float) : (a <=? b) = true -> (b <=? a) = true -> (a =? b) = true.
Proof. rewrite !leb_spec, eqb_spec. apply SFleb_antisym. Qed.

Lemma leb_refl (a : float) : isNaN a = false -> (a <=? a) = true.
Proof.
  rewrite isNaN_spec, leb_spec. intros H. unfold SFleb. now rewrite SFcompare_refl.
Qed.

Lemma leb_not_nan_l (a b : float) : (a <=? b) = true -> isNaN a = false.
Proof. rewrite leb_spec, isNaN_spec. apply SFleb_not_nan_l. Qed.

Lemma leb_not_nan_r (a b : float) : (a <=? b) = true -> isNaN b = false.
Proof. rewrite leb_spec, isNaN_spec. apply SFleb_not_nan_r. Qed.

Lemma ltb_not_nan_l (a b : float) : (a <? b) = true -> isNaN a = false.
Proof. intros H. exact (leb_not_nan_l _ _ (ltb_leb _ _ H)). Qed.

Lemma ltb_not_nan_r (a b : float) : (a <? b) = true -> isNaN b = false.
Proof. intros H. exact (leb_not_nan_r _ _ (ltb_leb _ _ H)). Qed.

(** Two zeros compare as equal, whatever their signs. *)
Lemma zeros_leb (a b : float) : is_zero a = true -> is_zero b = true -> (a <=? b) = true.
Proof.
  unfold is_zero. rewrite !eqb_spec, leb_spec. change (Prim2SF zero) with (S754_zero false).
  unfold SFeqb, SFleb.
  destruct (Prim2SF a) as [[|]|[|]| |[|] ? ?], (Prim2SF b) as [[|]|[|]| |[|] ? ?];
    simpl; congruence.
Qed.

(** A number that is not below +Infinity is +Infinity. *)
Lemma not_below_infinity (a : float) :
  isNaN a = false -> (a <? infinity) = false -> a = infinity.
Proof.
  rewrite isNaN_spec, ltb_spec. change (Prim2SF infinity) with (S754_infinity false).
  intros Hn H. apply Prim2SF_inj. change (Prim2SF infinity) with (S754_infinity false).
  unfold SFltb in H.
  destruct (Prim2SF a) as [[|]|[|]| |[|] ? ?]; simpl in H; congruence.
Qed.

Lemma not_above_neg_infinity (a : float) :
  isNaN a = false -> (neg_infinity <? a) = false -> a = neg_infinity.
Proof.
  rewrite isNaN_spec, ltb_spec. change (Prim2SF neg_infinity) with (S754_infinity true).
  intros Hn H. apply Prim2SF_inj. change (Prim2SF neg_infinity) with (S754_infinity true).
  unfold SFltb in H.
  destruct (Prim2SF a) as [[|]|[|]| |[|] ? ?]; simpl in H; congruence.
Qed.

(** [Math.min] and [Math.max] of two numbers. *)
Lemma Math_min_pair (a b : float) :
  isNaN a = false -> isNaN b = false ->
  Math_min [a; b] =
    if is_neg_zero b && is_pos_zero a then b else if b <? a then b else a.
Proof.
  intros Ha Hb. unfold Math_min. cbn [min_from]. rewrite Ha.
  change (is_pos_zero infinity) with false. rewrite andb_false_r.
  destruct (a <? infinity) eqn:E.
  - now rewrite Hb.
  - rewrite (not_below_infinity a Ha E). rewrite Hb. reflexivity.
Qed.

Lemma Math_max_pair (a b : float) :
  isNaN a = false -> isNaN b = false ->
  Math_max [a; b] =
    if is_pos_zero b && is_neg_zero a then b else if a <? b then b else a.
Proof.
  intros Ha Hb. unfold Math_max. cbn [max_from]. rewrite Ha.
  change (is_neg_zero neg_infinity) with false. rewrite andb_false_r.
  destruct (neg_infinity <? a) eqn:E.
  - now rewrite Hb.
  - rewrite (not_above_neg_infinity a Ha E). rewrite Hb. reflexivity.
Qed.

Lemma is_pos_zero_zero (a : float) : is_pos_zero a = true -> is_zero a = true.
Proof. unfold is_pos_zero. intros H. now apply andb_prop in H. Qed.

Lemma is_neg_zero_zero (a : float) : is_neg_zero a = true -> is_zero a = true.
Proof. unfold is_neg_zero. intros H. now apply andb_prop in H. Qed.

End FloatOrder.

(** ** The clamp of the controls rail *)

Section Clamp.

Import Controls.

Lemma min_step (hi v : float) :
  isNaN hi = false -> isNaN v = false ->
  let m := Math_min [hi; v] in
  isNaN m = false /\ (m <=? hi) = true /\ (m <=? v) = true /\ (m = v \/ m = hi).
Proof.
  intros Hh Hv. cbv zeta. rewrite (Math_min_pair hi v Hh Hv).
  destruct (is_neg_zero v && is_pos_zero hi) eqn:Z.
  - apply andb_prop in Z. destruct Z as [Zv Zh].
    repeat split; auto using leb_refl.
    apply zeros_leb; auto using is_neg_zero_zero, is_pos_zero_zero.
  - destruct (v <? hi) eqn:L.
    + repeat split; auto using leb_refl, ltb_leb.
    + repeat split; auto using leb_refl, ltb_false_leb.
Qed.

Lemma max_step (lo m : float) :
  isNaN lo = false -> isNaN m = false ->
  let r := Math_max [lo; m] in
  isNaN r = false /\ (lo <=? r) = true /\ (m <=? r) = true /\ (r = m \/ r = lo).
Proof.
  intros Hl Hm. cbv zeta. rewrite (Math_max_pair lo m Hl Hm).
  destruct (is_pos_zero m && is_neg_zero lo) eqn:Z.
  - apply andb_prop in Z. destruct Z as [Zm Zl].
    repeat split; auto using leb_refl.
    apply zeros_leb; auto using is_neg_zero_zero, is_pos_zero_zero.
  - destruct (lo <? m) eqn:L.
    + repeat split; auto using leb_refl, ltb_leb.
    + repeat split; auto using leb_refl, ltb_false_leb.
Qed.

(** Below its lower bound, or with bounds in the wrong order, the clamp is
    the lower bound itself. *)
Lemma clamp_floor (v lo hi : float) :
  isNaN v = false -> isNaN lo = false -> isNaN hi = false ->
  (v <? lo) = true \/ (hi <? lo) = true ->
  clamp v lo hi = lo.
Proof.
  intros Hv Hl Hh H. unfold clamp.
  destruct (min_step hi v Hh Hv) as (Hm & Mh & Mv & _). cbv zeta in *.
  set (m := Math_min [hi; v]) in *.
  assert (Lt : (m <? lo) = true)
    by (destruct H as [H|H]; eauto using leb_ltb_trans).
  rewrite (Math_max_pair lo m Hl Hm).
  destruct (is_pos_zero m && is_neg_zero lo) eqn:Z.
  - apply andb_prop in Z. destruct Z as [Zm Zl].
    assert (Le : (lo <=? m) = true)
      by (apply zeros_leb; auto using is_neg_zero_zero, is_pos_zero_zero).
    rewrite (leb_ltb_false _ _ Le) in Lt. discriminate.
  - now rewrite (leb_ltb_false _ _ (ltb_leb _ _ Lt)).
Qed.

Lemma clamp_bounds (v lo hi : float) :
  isNaN v = false -> (lo <=? hi) = true ->
  (lo <=? clamp v lo hi) = true /\ (clamp v lo hi <=? hi) = true.
Proof.
  intros Hv Hlh. unfold clamp.
  pose proof (leb_not_nan_l _ _ Hlh) as Hl. pose proof (leb_not_nan_r _ _ Hlh) as Hh.
  destruct (min_step hi v Hh Hv) as (Hm & Mh & Mv & _). cbv zeta in *.
  destruct (max_step lo _ Hl Hm) as (Hr & Rl & Rm & [E|E]). cbv zeta in *.
  - split; [exact Rl | now rewrite E].
  - cbv zeta in E. split; [exact Rl | now rewrite E].
Qed.

Lemma clamp_steps (v lo hi : float) :
  (lo <=? hi) = true -> isNaN v = false ->
  let m := Math_min [hi; v] in
  let r := Math_max [lo; m] in
  (m <=? hi) = true /\ (m <=? v) = true /\ (m = v \/ m = hi)
  /\ (lo <=? r) = true /\ (m <=? r) = true /\ (r = m \/ r = lo).
Proof.
  intros Hlh Hv. cbv zeta.
  pose proof (leb_not_nan_l _ _ Hlh) as Hl. pose proof (leb_not_nan_r _ _ Hlh) as Hh.
  destruct (min_step hi v Hh Hv) as (Hm & Mh & Mv & Me). cbv zeta in *.
  destruct (max_step lo _ Hl Hm) as (Hr & Rl & Rm & Re). cbv zeta in *.
  repeat split; assumption.
Qed.

Lemma clamp_in_range (v lo hi : float) :
  (lo <=? v) = true -> (v <=? hi) = true -> (clamp v lo hi =? v) = true.
Proof.
  intros Hlv Hvh. pose proof (leb_not_nan_l _ _ Hvh) as Hv.
  destruct (clamp_steps v lo hi (leb_trans _ _ _ Hlv Hvh) Hv)
    as (Mh & Mv & Me & Rl & Rm & Re). cbv zeta in *.
  unfold clamp. apply leb_antisym.
  - destruct Re as [E|E]; rewrite E; [exact Mv | exact Hlv].
  - apply leb_trans with (2 := Rm).
    destruct Me as [E|E]; rewrite E; [now apply leb_refl | exact Hvh].
Qed.

Lemma clamp_at_lower (v lo hi : float) :
  (lo <=? hi) = true -> (v <=? lo) = true -> (clamp v lo hi =? lo) = true.
Proof.
  intros Hlh Hvl. pose proof (leb_not_nan_l _ _ Hvl) as Hv.
  destruct (clamp_steps v lo hi Hlh Hv) as (Mh & Mv & Me & Rl & Rm & Re). cbv zeta in *.
  unfold clamp. apply leb_antisym; [|exact Rl].
  destruct Re as [E|E]; rewrite E;
    [eauto using leb_trans | apply leb_refl; exact (leb_not_nan_l _ _ Hlh)].
Qed.

Lemma clamp_at_upper (v lo hi : float) :
  (lo <=? hi) = true -> (hi <=? v) = true -> (clamp v lo hi =? hi) = true.
Proof.
  intros Hlh Hhv. pose proof (leb_not_nan_r _ _ Hhv) as Hv.
  destruct (clamp_steps v lo hi Hlh Hv) as (Mh & Mv & Me & Rl & Rm & Re). cbv zeta in *.
  unfold clamp. apply leb_antisym.
  - destruct Re as [E|E]; rewrite E; [exact Mh | exact Hlh].
  - apply leb_trans with (2 := Rm).
    destruct Me as [E|E]; rewrite E;
      [exact Hhv | apply leb_refl; exact (leb_not_nan_r _ _ Hlh)].
Qed.

Lemma clamp_of_nan (v lo hi : float) : isNaN v = true -> clamp v lo hi = nan.
Proof.
  intros Hv. unfold clamp, Math_max, Math_min. cbn [max_from min_from].
  destruct (isNaN lo) eqn:Hl; [reflexivity|].
  assert (E : min_from infinity [hi; v] = nan).
  { cbn [min_from]. destruct (isNaN hi); [reflexivity|].
    destruct (_ && _); [now rewrite Hv|]. destruct (hi <? infinity); now rewrite Hv. }
  fold (min_from infinity [hi; v]). rewrite E.
  destruct (_ && _); [reflexivity|]. destruct (neg_infinity <? lo); reflexivity.
Qed.

End Clamp.

(** X1.  With bounds in order the clamp of a number lies between them. *)
Theorem clamp_within_bounds :
  forall v lo hi : float,
    isNaN v = false -> (lo <=? hi) = true ->
    (lo <=? Controls.clamp v lo hi) = true /\ (Controls.clamp v lo hi <=? hi) = true.
Proof. intros v lo hi Hv Hlh. now apply clamp_bounds. Qed.

Lemma clamp_within_bounds_witness :
  (12 <=? Controls.clamp 700 12 568) = true /\ (Controls.clamp 700 12 568 <=? 568) = true.
Proof. apply (clamp_within_bounds 700 12 568); reflexivity. Defined.

(** X2.  The clamp returns a value that is within the bounds as it is, the
    lower bound for a value at or below it and the upper bound for a value
    at or above it (as numbers: compared with [===]). *)
Theorem clamp_fixes_and_saturates :
  forall v lo hi : float,
    (lo <=? hi) = true ->
    ((lo <=? v) = true -> (v <=? hi) = true -> (Controls.clamp v lo hi =? v) = true)
    /\ ((v <=? lo) = true -> (Controls.clamp v lo hi =? lo) = true)
    /\ ((hi <=? v) = true -> (Controls.clamp v lo hi =? hi) = true).
Proof.
  intros v lo hi Hlh. split; [|split].
  - apply clamp_in_range.
  - now apply clamp_at_lower.
  - now apply clamp_at_upper.
Qed.

Lemma clamp_fixes_and_saturates_witness :
  (Controls.clamp 300 12 568 =? 300) = true.
Proof.
  apply (clamp_fixes_and_saturates 300 12 568); reflexivity.
Defined.

(** X3.  With bounds in the wrong order, as for a container too small for
    the rail and its margins, the clamp is the lower bound, whatever the
    value; and the clamp of NaN is NaN. *)
Theorem clamp_inverted_bounds_and_nan :
  forall v lo hi : float,
    (isNaN v = false -> (hi <? lo) = true -> Controls.clamp v lo hi = lo)
    /\ (isNaN v = true -> Controls.clamp v lo hi = nan).
Proof.
  intros v lo hi. split.
  - intros Hv H. apply clamp_floor; auto.
    + exact (ltb_not_nan_r _ _ H).
    + exact (ltb_not_nan_l _ _ H).
  - apply clamp_of_nan.
Qed.

Lemma clamp_inverted_bounds_and_nan_witness :
  Controls.clamp 40 8 (-26) = 8.
Proof.
  apply (clamp_inverted_bounds_and_nan 40 8 (-26)); reflexivity.
Defined.

(** ** Moving and placing the controls rail *)

Lemma or_long_twice (a : option Z) (d : Z) : or_long a (or_long a d) = or_long a d.
Proof. destruct a as [v|]; [|reflexivity]. simpl. now destruct (v =? 0)%Z. Qed.

(** The clamp keeps a coordinate inside the container when the rail fits, and
    puts it at the margin when it does not. *)
Lemma clamp_coordinate (v margin hi : float) :
  isNaN v = false -> isNaN margin = false ->
  ((margin <=? hi) = true ->
   (margin <=? Controls.clamp v margin hi) = true
   /\ (Controls.clamp v margin hi <=? hi) = true)
  /\ ((hi <? margin) = true -> Controls.clamp v margin hi = margin).
Proof.
  intros Hv Hm. split.
  - intros H. now apply clamp_bounds.
  - intros H. apply clamp_floor; auto. exact (ltb_not_nan_l _ _ H).
Qed.



(** X5.  When the user has dropped the rail somewhere, the layout pass puts
    it at that position clamped with a margin of 12: inside the container on
    each axis on which the rail fits, at exactly 12 on an axis on which it
    does not.  Without the container or the frame element it sets no
    style. *)
Theorem user_position_is_clamped :
  forall (pg : Controls.Page) (userPos : Controls.Position),
    (forall c f : Controls.ClientRect,
        Controls.canvasContainerRef pg = Some c ->
        Controls.frameImgElementRef pg = Some f ->
        isNaN (Controls.pos_left userPos) = false ->
        isNaN (Controls.pos_top userPos) = false ->
        let railWidth :=
          or_long (option_map Controls.rail_offsetWidth (Controls.controlsRailRef pg)) 220 in
        let railHeight :=
          or_long (option_map Controls.rail_offsetHeight (Controls.controlsRailRef pg)) 140 in
        let maxLeft := Controls.width c - of_long railWidth - 12 in
        let maxTop := Controls.height c - of_long railHeight - 12 in
        exists p,
          Controls.updateControlsPosition pg (Some userPos) = Some p
          /\ ((12 <=? maxLeft) = true ->
              (12 <=? Controls.pos_left p) = true /\ (Controls.pos_left p <=? maxLeft) = true)
          /\ ((maxLeft <? 12) = true -> Controls.pos_left p = 12)
          /\ ((12 <=? maxTop) = true ->
              (12 <=? Controls.pos_top p) = true /\ (Controls.pos_top p <=? maxTop) = true)
          /\ ((maxTop <? 12) = true -> Controls.pos_top p = 12))
    /\ (Controls.canvasContainerRef pg = None \/ Controls.frameImgElementRef pg = None ->
        Controls.updateControlsPosition pg (Some userPos) = None).
Proof.
  intros pg userPos. split.
  - intros c f Hc Hf Hx Hy railWidth railHeight maxLeft maxTop.
    unfold Controls.updateControlsPosition. rewrite Hc, Hf. cbv zeta.
    rewrite !or_long_twice. eexists. split; [reflexivity|].
    cbn [Controls.pos_left Controls.pos_top].
    destruct (clamp_coordinate _ 12 maxLeft Hx eq_refl) as [L1 L2].
    destruct (clamp_coordinate _ 12 maxTop Hy eq_refl) as [T1 T2].
    repeat split; auto; try (now apply L1); try (now apply T1).
  - unfold Controls.updateControlsPosition. intros [H|H]; rewrite H; [reflexivity|].
    now destruct (Controls.canvasContainerRef pg).
Qed.

Lemma user_position_is_clamped_witness :
  exists p,
    Controls.updateControlsPosition Controls.sample_page
      (Some {| Controls.pos_top := 900; Controls.pos_left := -40 |}) = Some p
    /\ (12 <=? Controls.pos_left p) = true /\ (Controls.pos_left p <=? 800 - 220 - 12) = true.
Proof.
  destruct (proj1 (user_position_is_clamped Controls.sample_page
                     {| Controls.pos_top := 900; Controls.pos_left := -40 |})
              (Controls.container_of 800 600)
              {| Controls.left := 200; Controls.top := 100; Controls.right := 600;
                 Controls.bottom := 500; Controls.width := 400; Controls.height := 400 |}
              eq_refl eq_refl eq_refl eq_refl)
    as (p & Hp & HL & _).
  exists p. split; [exact Hp|]. apply HL. reflexivity.
Defined.



(** X7.  Without a user position the layout pass tries the left of the frame,
    then its right, then above it, and falls back to below it.  Beside the
    frame the rail is 12 from the container's left edge or 12 right of the
    frame, and its top is clamped; above or below, its left is clamped and
    its top is 12 or 12 below the frame.  The clamped coordinate lies between
    12 and the upper bound whenever the rail fits on that axis. *)
Theorem automatic_placement :
  forall (pg : Controls.Page) (c f : Controls.ClientRect),
    Controls.canvasContainerRef pg = Some c ->
    Controls.frameImgElementRef pg = Some f ->
    let desiredWidth :=
      or_long (option_map Controls.rail_offsetWidth (Controls.controlsRailRef pg)) 220 in
    let desiredHeight :=
      or_long (option_map Controls.rail_offsetHeight (Controls.controlsRailRef pg)) 140 in
    let spaceLeft := Controls.left f - Controls.left c - 12 in
    let spaceRight := Controls.right c - Controls.right f - 12 in
    let spaceTop := Controls.top f - Controls.top c - 12 in
    let centredTop := Controls.top f - Controls.top c + Controls.height f / 2
                      - of_long desiredHeight / 2 in
    let centredLeft := Controls.left f - Controls.left c + Controls.width f / 2
                       - of_long desiredWidth / 2 in
    let maxTop := Controls.height c - of_long desiredHeight - 12 in
    let maxLeft := Controls.width c - of_long desiredWidth - 12 in
    exists p,
      Controls.updateControlsPosition pg None = Some p
      /\ (let beside := Controls.ge spaceLeft (of_long desiredWidth)
                        || Controls.ge spaceRight (of_long desiredWidth) in
          if beside then
            Controls.pos_left p =
              (if Controls.ge spaceLeft (of_long desiredWidth) then 12
               else Controls.right f - Controls.left c + 12)
            /\ (isNaN centredTop = false -> (12 <=? maxTop) = true ->
                (12 <=? Controls.pos_top p) = true /\ (Controls.pos_top p <=? maxTop) = true)
          else
            Controls.pos_top p =
              (if Controls.ge spaceTop (of_long desiredHeight) then 12
               else Controls.bottom f - Controls.top c + 12)
            /\ (isNaN centredLeft = false -> (12 <=? maxLeft) = true ->
                (12 <=? Controls.pos_left p) = true
                /\ (Controls.pos_left p <=? maxLeft) = true)).
Proof.
  intros pg c f Hc Hf desiredWidth desiredHeight spaceLeft spaceRight spaceTop
         centredTop centredLeft maxTop maxLeft.
  unfold Controls.updateControlsPosition. rewrite Hc, Hf. cbv zeta.
  fold desiredWidth desiredHeight. fold spaceLeft spaceRight spaceTop.
  fold centredTop centredLeft maxTop maxLeft.
  destruct (Controls.ge spaceLeft (of_long desiredWidth)) eqn:EL;
    [|destruct (Controls.ge spaceRight (of_long desiredWidth)) eqn:ER;
      [|destruct (Controls.ge spaceTop (of_long desiredHeight)) eqn:ET]];
    eexists; (split; [reflexivity|]); cbn [orb Controls.pos_left Controls.pos_top];
    (split; [reflexivity|]); intros Hn Hfit; now apply clamp_bounds.
Qed.

Lemma automatic_placement_witness :
  exists p,
    Controls.updateControlsPosition Controls.sample_page None = Some p
    /\ Controls.pos_top p = 500 - 0 + 12
    /\ (12 <=? Controls.pos_left p) = true /\ (Controls.pos_left p <=? 800 - 220 - 12) = true.
Proof.
  destruct (automatic_placement Controls.sample_page
              (Controls.container_of 800 600)
              {| Controls.left := 200; Controls.top := 100; Controls.right := 600;
                 Controls.bottom := 500; Controls.width := 400; Controls.height := 400 |}
              eq_refl eq_refl)
    as (p & Hp & H).
  exists p. split; [exact Hp|].
  cbv zeta in H. destruct H as [Ht Hl]. split; [exact Ht|].
  apply Hl; reflexivity.
Defined.

(** ** Dragging the photo *)

Section PhotoDrag.

Lemma is_finite_spec (a : float) :
  is_finite a = true ->
  (exists s, Prim2SF a = S754_zero s) \/ (exists s m e, Prim2SF a = S754_finite s m e).
Proof.
  unfold is_finite, is_nan, is_infinity. rewrite !eqb_spec, abs_spec.
  change (Prim2SF infinity) with (S754_infinity false).
  destruct (Prim2SF a) as [s|s| |s m e]; simpl; try discriminate; eauto.
  destruct s; discriminate.
Qed.

(** A finite number minus itself is a zero. *)
Lemma sub_self_zero (a : float) : is_finite a = true -> is_zero (a - a) = true.
Proof.
  intros H. unfold is_zero. rewrite eqb_spec, sub_spec.
  change (Prim2SF zero) with (S754_zero false).
  destruct (is_finite_spec a H) as [[s ->]|(s & m & e & ->)].
  - now destruct s.
  - unfold SF64sub, SFsub. rewrite Z.sub_diag. reflexivity.
Qed.

(** Adding a zero to a number gives that number, up to the sign of zero. *)
Lemma add_zero_same (b z : float) :
  isNaN b = false -> is_zero z = true -> (b + z =? b) = true.
Proof.
  rewrite isNaN_spec. unfold is_zero. rewrite !eqb_spec, add_spec.
  change (Prim2SF zero) with (S754_zero false). intros Hb Hz.
  assert (Z : exists s, Prim2SF z = S754_zero s).
  { unfold SFeqb in Hz. destruct (Prim2SF z) as [s|[|]| |[|] ? ?]; simpl in Hz;
      try discriminate; eauto. }
  destruct Z as [sz ->]. unfold SF64add, SFadd, SFeqb.
  destruct (Prim2SF b) as [s|s| |s m e] eqn:E; try congruence.
  - now destruct s, sz.
  - now rewrite SFcompare_refl.
  - now rewrite SFcompare_refl.
Qed.

Variable container : option DOMRect.

(** One move of a drag in progress. *)
Lemma handleMouseMove_some (clientX clientY : float) (drag : DragState)
    (st : AppState) (q : ImageState) :
  isDragging drag = true -> profileImage st = Some q ->
  fst (handleMouseMove container clientX clientY drag st) =
    {| profileImage :=
         Some {| src := src q;
                 x := startImageX drag
                      + (fst (getCanvasPosition container clientX clientY) - startX drag);
                 y := startImageY drag
                      + (snd (getCanvasPosition container clientX clientY) - startY drag);
                 scale := scale q; rotation := rotation q |};
       frameImage := frameImage st |}.
Proof.
  intros Hd Hq. unfold handleMouseMove, setProfileImage. rewrite Hd, Hq. reflexivity.
Qed.

(** Moves keep everything but the offsets. *)
Lemma moves_keep_fields (drag : DragState) (moves : list (float * float)) :
  isDragging drag = true ->
  forall (st : AppState) (q : ImageState),
    profileImage st = Some q ->
    exists q',
      profileImage
        (fold_left (fun s m => fst (handleMouseMove container (fst m) (snd m) drag s))
                   moves st) = Some q'
      /\ src q' = src q /\ scale q' = scale q /\ rotation q' = rotation q
      /\ frameImage
           (fold_left (fun s m => fst (handleMouseMove container (fst m) (snd m) drag s))
                      moves st) = frameImage st.
Proof.
  intros Hd. induction moves as [|m moves IH]; intros st q Hq.
  - exists q. repeat split; auto.
  - cbn [fold_left]. rewrite (handleMouseMove_some _ _ drag st q Hd Hq).
    match goal with
    | |- context [fold_left _ moves ?s] =>
        destruct (IH s _ eq_refl) as (q' & H1 & H2 & H3 & H4 & H5)
    end.
    exists q'. repeat split; eauto.
Qed.

End PhotoDrag.

(** X8.  Where a drag leaves the photo depends only on where the pointer
    went down and where it was last seen, not on the moves in between: the
    offset is the offset at pointer-down plus the difference of the two
    pointer positions.  The source, the scale, the rotation and the frame
    are kept, and after the release further moves change nothing. *)
Theorem drag_depends_on_endpoints :
  forall (container : option DOMRect) (st : AppState) (p : ImageState) (drag0 : DragState)
         (downX downY lastX lastY : float) (moves : list (float * float)),
    profileImage st = Some p ->
    let drag := handleMouseDown container downX downY st drag0 in
    let st' :=
      fold_left (fun s m => fst (handleMouseMove container (fst m) (snd m) drag s))
                (moves ++ [(lastX, lastY)]) st in
    st' =
      {| profileImage :=
           Some {| src := src p;
                   x := x p + (fst (getCanvasPosition container lastX lastY)
                               - fst (getCanvasPosition container downX downY));
                   y := y p + (snd (getCanvasPosition container lastX lastY)
                               - snd (getCanvasPosition container downX downY));
                   scale := scale p; rotation := rotation p |};
         frameImage := frameImage st |}
    /\ (forall clientX clientY : float,
          handleMouseMove container clientX clientY (handleMouseUp drag) st' = (st', [])).
Proof.
  intros container st p drag0 downX downY lastX lastY moves Hp drag st'.
  assert (Hd : isDragging drag = true)
    by (subst drag; unfold handleMouseDown; now rewrite Hp).
  split.
  - subst st'. rewrite fold_left_app. cbn [fold_left fst snd].
    destruct (moves_keep_fields container drag moves Hd st p Hp)
      as (q & Hq & Hs & Hc & Hr & Hf).
    rewrite (handleMouseMove_some container lastX lastY drag _ q Hd Hq).
    rewrite Hs, Hc, Hr, Hf. subst drag. unfold handleMouseDown. rewrite Hp. reflexivity.
  - intros cx cy. reflexivity.
Qed.

Lemma drag_depends_on_endpoints_witness :
  fold_left
    (fun s m =>
       fst (handleMouseMove (Some (mkDOMRect 10 20 400 300)) (fst m) (snd m)
              (handleMouseDown (Some (mkDOMRect 10 20 400 300)) 100 100
                 (scenario_state 5 7) initialDragState) s))
    ([(150, 90); (400, 400)] ++ [(130, 160)]) (scenario_state 5 7)
  = scenario_state (5 + ((130 - 10 - 400 / 2) - (100 - 10 - 400 / 2)))
                   (7 + ((160 - 20 - 300 / 2) - (100 - 20 - 300 / 2))).
Proof.
  apply (drag_depends_on_endpoints (Some (mkDOMRect 10 20 400 300)) (scenario_state 5 7)
           (mkImageState "data:image/png;base64,AA" 5 7 1 0) initialDragState
           100 100 130 160 [(150, 90); (400, 400)]).
  reflexivity.
Defined.

(** X9.  A press and a move at the same pointer position leave the photo's
    offsets as they were (as numbers), provided the position is finite: a
    click does not nudge the photo. *)
Theorem click_without_movement_keeps_offset :
  forall (container : option DOMRect) (st : AppState) (p : ImageState) (drag0 : DragState)
         (clientX clientY : float),
    profileImage st = Some p ->
    isNaN (x p) = false -> isNaN (y p) = false ->
    is_finite (fst (getCanvasPosition container clientX clientY)) = true ->
    is_finite (snd (getCanvasPosition container clientX clientY)) = true ->
    exists q,
      profileImage
        (fst (handleMouseMove container clientX clientY
                (handleMouseDown container clientX clientY st drag0) st)) = Some q
      /\ (x q =? x p) = true /\ (y q =? y p) = true
      /\ src q = src p /\ scale q = scale p /\ rotation q = rotation p.
Proof.
  intros container st p drag0 cx cy Hp Hx Hy Fx Fy.
  assert (Hd : isDragging (handleMouseDown container cx cy st drag0) = true)
    by (unfold handleMouseDown; now rewrite Hp).
  rewrite (handleMouseMove_some container cx cy _ st p Hd Hp).
  eexists. split; [reflexivity|]. cbn [x y src scale rotation].
  unfold handleMouseDown. rewrite Hp. cbn [startX startY startImageX startImageY].
  repeat split; apply add_zero_same; auto using sub_self_zero.
Qed.

Lemma click_without_movement_keeps_offset_witness :
  exists q,
    profileImage
      (fst (handleMouseMove (Some (mkDOMRect 10 20 400 300)) 123 45
              (handleMouseDown (Some (mkDOMRect 10 20 400 300)) 123 45
                 (scenario_state 5 7) initialDragState)
              (scenario_state 5 7))) = Some q
    /\ (x q =? 5) = true /\ (y q =? 7) = true.
Proof.
  destruct (click_without_movement_keeps_offset (Some (mkDOMRect 10 20 400 300))
              (scenario_state 5 7) (mkImageState "data:image/png;base64,AA" 5 7 1 0)
              initialDragState 123 45 eq_refl eq_refl eq_refl eq_refl eq_refl)
    as (q & Hq & Hx & Hy & _).
  exists q. repeat split; assumption.
Defined.

(** ** Invariants of the state under all operations *)

Section Invariants.

Lemma perform_keeps_scale_bounds (a : Action) (s : AppState * DragState) :
  (forall p, profileImage (fst s) = Some p -> scale_in_bounds (scale p) = true) ->
  forall p', profileImage (fst (perform a s)) = Some p' -> scale_in_bounds (scale p') = true.
Proof.
  destruct s as [st drag]. cbn [fst]. intros Inv.
  assert (Keep : forall (f : ImageState -> ImageState),
             (forall q, scale (f q) = scale q) ->
             forall p', profileImage (setProfileImage f st) = Some p' ->
                        scale_in_bounds (scale p') = true).
  { intros f Hf p'. unfold setProfileImage. cbn [profileImage].
    destruct (profileImage st) as [q|] eqn:E; cbn [option_map]; [|discriminate].
    intros E'. injection E' as <-. rewrite Hf. now apply Inv. }
  destruct a; cbn [perform fst].
  - unfold handleImageUpload. destruct files as [|file others]; [exact Inv|].
    destruct (negb _); exact Inv.
  - cbn. intros p' E. injection E as <-. reflexivity.
  - exact Inv.
  - unfold handleMouseMove. destruct (isDragging drag); [|exact Inv].
    destruct (profileImage st) as [q|] eqn:E; [|cbn [fst]; rewrite E; discriminate].
    cbn [fst]. apply Keep. reflexivity.
  - exact Inv.
  - unfold handleRotate.
    destruct (profileImage st) as [q|] eqn:E; [|cbn [fst]; rewrite E; discriminate].
    cbn [fst]. apply Keep. reflexivity.
  - unfold slider_onChange, handlePreciseRotate.
    destruct (profileImage st) as [q|] eqn:E; [|cbn [fst]; rewrite E; discriminate].
    cbn [fst]. apply Keep. reflexivity.
  - unfold handleZoom.
    destruct (profileImage st) as [q|] eqn:E; [|cbn [fst]; rewrite E; discriminate].
    cbn [fst]. unfold setProfileImage. cbn [profileImage]. rewrite E. cbn [option_map].
    intros p' E'. injection E' as <-. cbn [scale with_scale].
    apply zoomScale_in_bounds. now apply Inv.
  - cbn. discriminate.
Qed.

Lemma perform_keeps_frame_present (a : Action) (s : AppState * DragState) :
  (exists f, frameImage (fst s) = Some f /\ nonempty f = true) ->
  exists f, frameImage (fst (perform a s)) = Some f /\ nonempty f = true.
Proof.
  intros Inv. destruct (is_clear a) eqn:C.
  - destruct a; try discriminate. destruct s as [st drag]. cbn.
    eexists. split; reflexivity.
  - now rewrite (perform_keeps_frame a s C).
Qed.

End Invariants.

(** X10.  Whatever the user does (uploads, drags, rotations, slider inputs,
    zooms, clears, in any order), a photo whose scale is within [0.1, 3]
    keeps a scale within [0.1, 3]; a freshly uploaded photo has scale 1, so
    the bound holds in every state reached from the initial one. *)
Theorem scale_in_bounds_under_all_operations :
  forall (acts : list Action) (s : AppState * DragState),
    (forall p, profileImage (fst s) = Some p -> scale_in_bounds (scale p) = true) ->
    forall p', profileImage (fst (fold_left (fun s a => perform a s) acts s)) = Some p' ->
               scale_in_bounds (scale p') = true.
Proof.
  induction acts as [|a acts IH]; intros s Inv.
  - exact Inv.
  - cbn [fold_left]. apply IH. now apply perform_keeps_scale_bounds.
Qed.

Lemma scale_in_bounds_under_all_operations_witness :
  exists p',
    profileImage
      (fst (fold_left (fun s a => perform a s)
              [act_read_done (mkFile "image/png" "data:image/png;base64,AA");
               act_zoom zoom_out; act_rotate; act_zoom zoom_in; act_slider 200]
              (initialState, initialDragState))) = Some p'
    /\ scale_in_bounds (scale p') = true.
Proof.
  eexists. split; [vm_compute; reflexivity|].
  apply (scale_in_bounds_under_all_operations
           [act_read_done (mkFile "image/png" "data:image/png;base64,AA");
            act_zoom zoom_out; act_rotate; act_zoom zoom_in; act_slider 200]
           (initialState, initialDragState)).
  - intros p H. discriminate H.
  - vm_compute. reflexivity.
Defined.

(** X11.  In every state reached from the initial one the frame path is
    present and not empty, so on a mounted page with a 2D context an export
    request is refused exactly when no photo is loaded. *)
Theorem export_refused_only_without_photo :
  forall (acts : list Action) (dom : Dom) (clientWidth clientHeight : Z),
    let st := fst (fold_left (fun s a => perform a s) acts (initialState, initialDragState)) in
    (exists f, frameImage st = Some f /\ nonempty f = true)
    /\ (canvasRef dom = true -> context2d dom = true ->
        canvasContainerRef dom = Some (clientWidth, clientHeight) ->
        match profileImage st with
        | None =>
            handleDownload dom st =
              download_rejected
                (toast_error "Please upload both profile image and frame first!")
        | Some p => exists job, handleDownload dom st = download_loading job
                                /\ job_profile job = p
        end).
Proof.
  intros acts dom cw ch st.
  assert (F : exists f, frameImage st = Some f /\ nonempty f = true).
  { subst st.
    assert (G : forall s : AppState * DragState,
               (exists f, frameImage (fst s) = Some f /\ nonempty f = true) ->
               exists f, frameImage (fst (fold_left (fun s a => perform a s) acts s)) = Some f
                         /\ nonempty f = true).
    { induction acts as [|a acts IH]; intros s Inv; [exact Inv|].
      cbn [fold_left]. apply IH. now apply perform_keeps_frame_present. }
    apply G. eexists. split; reflexivity. }
  split; [exact F|].
  intros Hc Hx Hcont. destruct F as (f & Hf & Hne).
  destruct (profileImage st) as [p|] eqn:Hp.
  - eexists. split.
    + exact (handleDownload_accepts dom st p f cw ch Hc Hx Hcont Hp Hf Hne).
    + reflexivity.
  - apply handleDownload_rejects. right. left. exact Hp.
Qed.

Lemma export_refused_only_without_photo_witness :
  handleDownload (scenario_dom 300 300)
    (fst (fold_left (fun s a => perform a s)
            [act_read_done (mkFile "image/png" "data:image/png;base64,AA"); act_clear;
             act_zoom zoom_in]
            (initialState, initialDragState))) =
    download_rejected (toast_error "Please upload both profile image and frame first!").
Proof.
  apply (proj2 (export_refused_only_without_photo
                  [act_read_done (mkFile "image/png" "data:image/png;base64,AA"); act_clear;
                   act_zoom zoom_in]
                  (scenario_dom 300 300) 300 300)
               eq_refl eq_refl eq_refl).
Defined.

(** ** How the operations compose *)

(** X12.  Zooming, rotating by the button and moving the photo act on
    different fields and can be swapped: zoom and rotate, zoom and slider,
    zoom and drag move, rotate and drag move, slider and drag move give the
    same state in either order.  The slider overrides what the button did
    before it. *)
Theorem operations_on_different_fields_commute :
  forall (st : AppState) (d : Direction) (value : string)
         (container : option DOMRect) (clientX clientY : float) (drag : DragState),
    let zoom s := fst (handleZoom d s) in
    let turn s := fst (handleRotate s) in
    let slide s := fst (slider_onChange value s) in
    let move s := fst (handleMouseMove container clientX clientY drag s) in
    zoom (turn st) = turn (zoom st)
    /\ zoom (slide st) = slide (zoom st)
    /\ zoom (move st) = move (zoom st)
    /\ turn (move st) = move (turn st)
    /\ slide (move st) = move (slide st)
    /\ slide (turn st) = slide st.
Proof.
  intros st d value container cx cy drag zoom turn slide move.
  subst zoom turn slide move.
  unfold handleZoom, handleRotate, slider_onChange, handlePreciseRotate, handleMouseMove,
    setProfileImage.
  destruct st as [[q|] f]; destruct (isDragging drag); cbn; repeat split; reflexivity.
Qed.



(** X14.  After Clear All there is no photo: an export request is refused on
    any page, and every operation leaves the state as it is until a read of
    an uploaded file completes.  Clearing twice is clearing once. *)
Theorem cleared_state_is_inert :
  forall (st : AppState) (drag : DragState) (dom : Dom) (a : Action),
    let cleared := fst (clearAll st) in
    handleDownload dom cleared =
      download_rejected (toast_error "Please upload both profile image and frame first!")
    /\ ((forall file, a <> act_read_done file) ->
        fst (perform a (cleared, drag)) = cleared).
Proof.
  intros st drag dom a cleared. split.
  - apply handleDownload_rejects. right. left. reflexivity.
  - intros H. subst cleared. destruct a; cbn [perform fst]; try reflexivity.
    + unfold handleImageUpload. destruct files as [|file others]; [reflexivity|].
      now destruct (negb _).
    + now contradiction (H file).
    + unfold handleMouseMove. now destruct (isDragging drag).
Qed.

Lemma cleared_state_is_inert_witness :
  fst (perform (act_zoom zoom_in) (fst (clearAll (scenario_state 3 4)), initialDragState))
  = fst (clearAll (scenario_state 3 4)).
Proof.
  apply (proj2 (cleared_state_is_inert (scenario_state 3 4) initialDragState
                  (scenario_dom 300 300) (act_zoom zoom_in))).
  intros file. discriminate.
Defined.

(** ** More on the export *)

Section ContextOfCanvas.

Variable blend : Canvas.Pixel -> Canvas.Pixel -> Canvas.Pixel.
Variable resample :
  list Canvas.Transform -> Canvas.Image -> float -> float -> float -> float -> Canvas.Bitmap.
Variable erased : list Canvas.Transform -> float -> float -> float -> float -> Z -> Z -> bool.

Local Abbreviation exec := (Canvas.exec blend resample erased).

(** Painting and erasing do not touch the transformation, the stack or the
    size. *)
Lemma exec_drawImage_context img dx dy dw dh s :
  Canvas.ctm (exec (Canvas.drawImage img dx dy dw dh) s) = Canvas.ctm s
  /\ Canvas.saved (exec (Canvas.drawImage img dx dy dw dh) s) = Canvas.saved s
  /\ Canvas.cv_width (exec (Canvas.drawImage img dx dy dw dh) s) = Canvas.cv_width s
  /\ Canvas.cv_height (exec (Canvas.drawImage img dx dy dw dh) s) = Canvas.cv_height s.
Proof. repeat split. Qed.

Lemma exec_clearRect_context rx ry rw rh s :
  Canvas.ctm (exec (Canvas.clearRect rx ry rw rh) s) = Canvas.ctm s
  /\ Canvas.saved (exec (Canvas.clearRect rx ry rw rh) s) = Canvas.saved s
  /\ Canvas.cv_width (exec (Canvas.clearRect rx ry rw rh) s) = Canvas.cv_width s
  /\ Canvas.cv_height (exec (Canvas.clearRect rx ry rw rh) s) = Canvas.cv_height s.
Proof. repeat split. Qed.

(** [translate] and [rotate] touch the transformation only. *)
Lemma exec_translate_context tx ty s :
  Canvas.saved (exec (Canvas.translate tx ty) s) = Canvas.saved s
  /\ Canvas.cv_width (exec (Canvas.translate tx ty) s) = Canvas.cv_width s
  /\ Canvas.cv_height (exec (Canvas.translate tx ty) s) = Canvas.cv_height s.
Proof.
  cbn [Canvas.exec]. destruct (is_finite tx && is_finite ty); repeat split.
Qed.

Lemma exec_rotate_context a s :
  Canvas.saved (exec (Canvas.rotate a) s) = Canvas.saved s
  /\ Canvas.cv_width (exec (Canvas.rotate a) s) = Canvas.cv_width s
  /\ Canvas.cv_height (exec (Canvas.rotate a) s) = Canvas.cv_height s.
Proof. cbn [Canvas.exec]. destruct (is_finite a); repeat split. Qed.

(** [restore] after a [save] and commands that keep the stack brings back the
    transformation and the stack of before the [save]. *)
Lemma exec_restore_context t rest s :
  Canvas.saved s = t :: rest ->
  Canvas.ctm (exec Canvas.restore s) = t
  /\ Canvas.saved (exec Canvas.restore s) = rest
  /\ Canvas.cv_width (exec Canvas.restore s) = Canvas.cv_width s
  /\ Canvas.cv_height (exec Canvas.restore s) = Canvas.cv_height s.
Proof. intros H. cbn [Canvas.exec]. rewrite H. repeat split. Qed.

Lemma run_drawing_context (job : ExportJob) (dom' : Dom)
    (profileImg frameImg : Canvas.Image) (s0 : Canvas.State) :
  let s := Canvas.run blend resample erased (drawing job dom' profileImg frameImg) s0 in
  Canvas.ctm s = [] /\ Canvas.saved s = []
  /\ Canvas.cv_width s = Canvas.width frameImg
  /\ Canvas.cv_height s = Canvas.height frameImg.
Proof.
  unfold Canvas.run, drawing. cbn [fold_left].
  set (s2 := exec (Canvas.set_height _) (exec (Canvas.set_width _) s0)).
  set (s3 := exec (Canvas.clearRect _ _ _ _) s2).
  set (s4 := exec Canvas.save s3).
  set (s5 := exec (Canvas.translate _ _) s4).
  set (s6 := exec (Canvas.rotate _) s5).
  set (s7 := exec (Canvas.drawImage profileImg _ _ _ _) s6).
  set (s8 := exec Canvas.restore s7).
  assert (H2 : Canvas.ctm s2 = [] /\ Canvas.saved s2 = []
               /\ Canvas.cv_width s2 = Canvas.width frameImg
               /\ Canvas.cv_height s2 = Canvas.height frameImg) by (repeat split).
  destruct H2 as (C2 & S2 & W2 & H2).
  destruct (exec_clearRect_context 0 0 (of_long (Canvas.width frameImg))
              (of_long (Canvas.height frameImg)) s2) as (C3 & S3 & W3 & H3).
  fold s3 in C3, S3, W3, H3.
  assert (S4 : Canvas.saved s4 = Canvas.ctm s3 :: Canvas.saved s3) by reflexivity.
  rewrite C3, S3, C2, S2 in S4.
  assert (W4 : Canvas.cv_width s4 = Canvas.cv_width s3) by reflexivity.
  assert (H4 : Canvas.cv_height s4 = Canvas.cv_height s3) by reflexivity.
  destruct (exec_translate_context (actualX job frameImg) (actualY job frameImg) s4)
    as (S5 & W5 & H5). fold s5 in S5, W5, H5.
  destruct (exec_rotate_context (rotation (job_profile job) * Math_PI / 180) s5)
    as (S6 & W6 & H6). fold s6 in S6, W6, H6.
  destruct (exec_drawImage_context profileImg
              (- destWidth job dom' profileImg frameImg / 2)
              (- destHeight job dom' profileImg frameImg / 2)
              (destWidth job dom' profileImg frameImg)
              (destHeight job dom' profileImg frameImg) s6) as (_ & S7 & W7 & H7).
  fold s7 in S7, W7, H7.
  assert (E7 : Canvas.saved s7 = [] :: []) by congruence.
  destruct (exec_restore_context [] [] s7 E7) as (C8 & S8 & W8 & H8).
  fold s8 in C8, S8, W8, H8.
  destruct (exec_drawImage_context frameImg 0 0 (of_long (Canvas.width frameImg))
              (of_long (Canvas.height frameImg)) s8) as (C9 & S9 & W9 & H9).
  rewrite C9, S9, W9, H9. repeat split; congruence.
Qed.

End ContextOfCanvas.

(** X15.  The export leaves the drawing context as a fresh one: whatever the
    offset, scale and rotation of the photo (also when the anchor or the
    angle is not finite and the canvas ignores [translate] or [rotate]), and
    whatever state the canvas was in, after the drawing the transformation
    is the identity, the stack of saved states is empty and the canvas has
    the frame's natural size. *)
Theorem export_restores_context :
  forall (blend : Canvas.Pixel -> Canvas.Pixel -> Canvas.Pixel)
         (resample : list Canvas.Transform -> Canvas.Image ->
                     float -> float -> float -> float -> Canvas.Bitmap)
         (erased : list Canvas.Transform -> float -> float -> float -> float ->
                   Z -> Z -> bool)
         (job : ExportJob) (dom' : Dom) (profileImg frameImg : Canvas.Image)
         (s0 : Canvas.State),
    let s := Canvas.run blend resample erased (drawing job dom' profileImg frameImg) s0 in
    Canvas.ctm s = [] /\ Canvas.saved s = []
    /\ Canvas.cv_width s = Canvas.width frameImg
    /\ Canvas.cv_height s = Canvas.height frameImg.
Proof.
  intros blend resample erased job dom' profileImg frameImg s0.
  apply run_drawing_context.
Qed.

(** X16.  The rotation label agrees with the slider: after a slider input at
    any position from 0 to 360 the label shows the text of that position. *)
Theorem slider_label_shows_position :
  forall (k : Z) (st : AppState) (p : ImageState),
    (slider_min <= k <= slider_max)%Z ->
    profileImage st = Some p ->
    exists q,
      profileImage (fst (slider_onChange (slider_value k) st)) = Some q
      /\ Display.rotation_label q = Some (slider_value k).
Proof.
  intros k st p Hk Hp. unfold slider_min, slider_max in Hk.
  assert (H : Display.toFixed0 (parseInt (slider_value k)) = Some (slider_value k)).
  { assert (C : Display.slider_labels_agree = true) by (vm_compute; reflexivity).
    unfold Display.slider_labels_agree in C. rewrite forallb_forall in C.
    specialize (C k).
    assert (Hin : In k (map Z.of_nat (seq 0 361))).
    { apply in_map_iff. exists (Z.to_nat k). split; [lia | apply in_seq; lia]. }
    specialize (C Hin).
    unfold slider_onChange, handlePreciseRotate, setProfileImage, scenario_state in C.
    cbn [profileImage option_map fst Display.rotation_label] in C.
    unfold Display.rotation_label in C. cbn [rotation with_rotation] in C.
    destruct (Display.toFixed0 (parseInt (slider_value k))) as [label|]; [|discriminate].
    apply String.eqb_eq in C. now subst. }
  unfold slider_onChange, handlePreciseRotate, setProfileImage. rewrite Hp.
  eexists. split; [reflexivity|]. exact H.
Qed.

Lemma slider_label_shows_position_witness :
  exists q,
    profileImage (fst (slider_onChange (slider_value 270) (scenario_state 0 0))) = Some q
    /\ Display.rotation_label q = Some (slider_value 270).
Proof.
  apply (slider_label_shows_position 270 (scenario_state 0 0)
           (mkImageState "data:image/png;base64,AA" 0 0 1 0)).
  - unfold slider_min, slider_max. lia.
  - reflexivity.
Defined.

(** The quotient of two finite numbers is a number. *)
Lemma div_finite_not_nan a b sa ma ea sb mb eb :
  Prim2SF a = S754_finite sa ma ea -> Prim2SF b = S754_finite sb mb eb ->
  Prim2SF (a / b) <> S754_nan.
Proof.
  intros Ha Hb. rewrite div_spec, Ha, Hb. unfold SF64div, SFdiv.
  destruct (SFdiv_core_binary prec emax (Z.pos ma) ea (Z.pos mb) eb) as [[mz ez] lz] eqn:E.
  apply binary_round_aux_not_nan.
  unfold SFdiv_core_binary in E.
  set (s := (ea - eb - _)%Z) in E.
  set (m' := match s with 0%Z => Z.pos ma | Z.pos _ => IntDef.Z.shiftl (Z.pos ma) s
                     | Z.neg _ => 0%Z end) in E.
  assert (Hm : (0 <= m')%Z).
  { subst m'. destruct s; try lia. change IntDef.Z.shiftl with Z.shiftl.
    apply Z.shiftl_nonneg. lia. }
  change IntDef.Z.div_eucl with Z.div_eucl in E.
  pose proof (Z.div_pos m' (Z.pos mb) Hm ltac:(lia)) as Hq.
  unfold Z.div in Hq. destruct (Z.div_eucl m' (Z.pos mb)) as [q r].
  injection E as <- _ _. exact Hq.
Qed.

(** X17.  For positive displayed and natural frame sizes both axis factors of
    the export are numbers, and the photo is sized with the smaller of the
    two: the factor applied to its width and to its height is one of them
    and exceeds neither. *)
Theorem photo_sized_with_smaller_factor :
  forall (job : ExportJob) (dom' : Dom) (profileImg frameImg : Canvas.Image),
    (0 < displayedFrameWidth job < 2 ^ 53)%Z ->
    (0 < displayedFrameHeight job < 2 ^ 53)%Z ->
    (0 < Canvas.width frameImg < 2 ^ 53)%Z ->
    (0 < Canvas.height frameImg < 2 ^ 53)%Z ->
    exists u,
      destWidth job dom' profileImg frameImg =
        of_long (baseDisplayedProfileWidth dom' profileImg) * scale (job_profile job) * u
      /\ destHeight job dom' profileImg frameImg =
           of_long (baseDisplayedProfileHeight dom' profileImg) * scale (job_profile job) * u
      /\ isNaN (scaleX job frameImg) = false /\ isNaN (scaleY job frameImg) = false
      /\ (u = scaleX job frameImg \/ u = scaleY job frameImg)
      /\ (u <=? scaleX job frameImg) = true /\ (u <=? scaleY job frameImg) = true.
Proof.
  intros job dom' profileImg frameImg Hdw Hdh Hw Hh.
  destruct (of_long_pos_finite _ Hdw) as (m1 & e1 & E1).
  destruct (of_long_pos_finite _ Hdh) as (m2 & e2 & E2).
  destruct (of_long_pos_finite _ Hw) as (m3 & e3 & E3).
  destruct (of_long_pos_finite _ Hh) as (m4 & e4 & E4).
  assert (Nx : isNaN (scaleX job frameImg) = false)
    by (apply isNaN_false; unfold scaleX; eapply div_finite_not_nan; eassumption).
  assert (Ny : isNaN (scaleY job frameImg) = false)
    by (apply isNaN_false; unfold scaleY; eapply div_finite_not_nan; eassumption).
  destruct (min_step _ _ Nx Ny) as (_ & Mx & My & Me). cbv zeta in *.
  exists (Math_min [scaleX job frameImg; scaleY job frameImg]).
  repeat split; auto. destruct Me; auto.
Qed.

Lemma photo_sized_with_smaller_factor_witness :
  exists u,
    destWidth tiny_job (scenario_dom 2 2) tiny_photo tiny_frame =
      of_long (baseDisplayedProfileWidth (scenario_dom 2 2) tiny_photo)
      * scale (job_profile tiny_job) * u
    /\ destHeight tiny_job (scenario_dom 2 2) tiny_photo tiny_frame =
         of_long (baseDisplayedProfileHeight (scenario_dom 2 2) tiny_photo)
         * scale (job_profile tiny_job) * u
    /\ isNaN (scaleX tiny_job tiny_frame) = false /\ isNaN (scaleY tiny_job tiny_frame) = false
    /\ (u = scaleX tiny_job tiny_frame \/ u = scaleY tiny_job tiny_frame)
    /\ (u <=? scaleX tiny_job tiny_frame) = true /\ (u <=? scaleY tiny_job tiny_frame) = true.
Proof.
  apply (photo_sized_with_smaller_factor tiny_job (scenario_dom 2 2) tiny_photo tiny_frame);
    cbn; lia.
Defined.

(** ** Grabbing the rail *)

Lemma eqb_leb_both (a b : float) :
  (a =? b) = true -> (a <=? b) = true /\ (b <=? a) = true.
Proof.
  rewrite eqb_spec, !leb_spec. unfold SFeqb, SFleb.
  generalize (Prim2SF a) (Prim2SF b). intros u v. order_cases2 u v; split; reflexivity.
Qed.

(** The clamp of a value that equals, as a number, one within the bounds. *)
Lemma clamp_of_same (v w lo hi : float) :
  (v =? w) = true -> (lo <=? w) = true -> (w <=? hi) = true ->
  (Controls.clamp v lo hi =? w) = true.
Proof.
  intros E Hl Hh. destruct (eqb_leb_both _ _ E) as [Hvw Hwv].
  assert (C : (Controls.clamp v lo hi =? v) = true)
    by (apply clamp_in_range; eauto using leb_trans).
  destruct (eqb_leb_both _ _ C) as [C1 C2].
  apply leb_antisym; eauto using leb_trans.
Qed.

(** X18.  Grabbing the rail's handle and moving the pointer nowhere leaves
    the rail where it is (as numbers), provided the pointer position is
    finite and the rail is at least 8 pixels inside the container. *)
Theorem grab_without_moving_keeps_rail :
  forall (pg : Controls.Page) (st : Controls.State) (c : Controls.ClientRect)
         (rail : Controls.Rail) (clientX clientY : float),
    Controls.canvasContainerRef pg = Some c ->
    Controls.controlsRailRef pg = Some rail ->
    is_finite clientX = true -> is_finite clientY = true ->
    let railLeft := Controls.left (Controls.rail_rect rail) - Controls.left c in
    let railTop := Controls.top (Controls.rail_rect rail) - Controls.top c in
    let maxLeft := Controls.width c - of_long (Controls.rail_offsetWidth rail) - 8 in
    let maxTop := Controls.height c - of_long (Controls.rail_offsetHeight rail) - 8 in
    (8 <=? railLeft) = true -> (railLeft <=? maxLeft) = true ->
    (8 <=? railTop) = true -> (railTop <=? maxTop) = true ->
    exists p,
      Controls.controlsStyle
        (Controls.onControlsDragMove pg clientX clientY
           (Controls.beginControlsDrag pg clientX clientY st)) = Some p
      /\ (Controls.pos_left p =? railLeft) = true
      /\ (Controls.pos_top p =? railTop) = true.
Proof.
  intros pg st c rail cx cy Hc Hr Fx Fy railLeft railTop maxLeft maxTop L1 L2 T1 T2.
  unfold Controls.onControlsDragMove, Controls.beginControlsDrag. rewrite Hr, Hc.
  cbn [Controls.isDraggingControls Controls.controlsDragStartRef Controls.startX
       Controls.startY Controls.startLeft Controls.startTop Controls.controlsStyle].
  eexists. split; [reflexivity|]. cbn [Controls.pos_left Controls.pos_top].
  split; apply clamp_of_same; auto; apply add_zero_same;
    eauto using sub_self_zero, leb_not_nan_l.
Qed.

Lemma grab_without_moving_keeps_rail_witness :
  exists p,
    Controls.controlsStyle
      (Controls.onControlsDragMove Controls.sample_page 20 240
         (Controls.beginControlsDrag Controls.sample_page 20 240 Controls.initialState))
      = Some p
    /\ (Controls.pos_left p =? 12 - 0) = true
    /\ (Controls.pos_top p =? 230 - 0) = true.
Proof.
  apply (grab_without_moving_keeps_rail Controls.sample_page Controls.initialState
           (Controls.container_of 800 600)
           {| Controls.rail_rect :=
                {| Controls.left := 12; Controls.top := 230; Controls.right := 232;
                   Controls.bottom := 370; Controls.width := 220; Controls.height := 140 |};
              Controls.rail_offsetWidth := 220; Controls.rail_offsetHeight := 140 |}
           20 240); reflexivity.
Defined.
